(** * TreeSense: the single-image inference pipeline

    A shallow embedding of the two TypeScript modules of the front end:

    - [TfModel]: the in-browser TensorFlow.js pipeline (module-level
      [model] / [classMapping] references, [loadModel], [predictImage]);
    - [Api]: the HTTP client ([predictImage] sending the image to the
      prediction service).

    Conventions.
    - A JavaScript [number] holding a probability is modelled by the
      rational it denotes ([Q]): the type has no NaN and no infinity, and
      on finite doubles the sign of [b - a] is the sign of the exact
      difference, which is all that [Array.prototype.sort] looks at.
    - The [float32] entries of the input tensor are IEEE-754 binary32
      values ([spec_float] with precision 24 and [emax] 128); the index
      arithmetic of the resizing is done in binary64, as JavaScript does.
    - A thrown exception is the left injection of a sum; module-level
      variables are threaded as an explicit state; calls that leave the
      module (network, TensorFlow.js runtime) are recorded in a trace. *)

From Stdlib Require Import ZArith QArith List Lia Lqa.
From Stdlib Require Import Floats.SpecFloat.
From stdpp Require Import base list strings gmap pretty sorting.

Local Open Scope string_scope.

(** ** JavaScript values shared by both modules *)

(** An [Error] object, reduced to the two properties the code reads. *)
Record Error := mkError { name : string; message : string }.

(** [new Error(msg)] *)
Definition newError (msg : string) : Error :=
  {| name := "Error"; message := msg |}.

(** The [TypeError] raised by the runtime on a property access through
    [null] or [undefined]. *)
Definition TypeError (msg : string) : Error :=
  {| name := "TypeError"; message := msg |}.

(** [haystack.includes(needle)] *)
Fixpoint includes (needle haystack : string) : bool :=
  String.prefix needle haystack ||
  match haystack with
  | EmptyString => false
  | String _ rest => includes needle rest
  end.

(** ** Binary32 arithmetic of the tensor *)

Module Float32.

Definition prec : Z := 24.
Definition emax : Z := 128.

(** [toFloat] of an [int32] entry. *)
Definition of_int (v : Z) : spec_float := binary_normalize prec emax v 0 false.

Definition div (x y : spec_float) : spec_float := SFdiv prec emax x y.

Definition zero : spec_float := S754_zero false.
Definition one : spec_float := of_int 1.


End Float32.

(** ** Binary64 arithmetic of JavaScript numbers *)

Module Float64.

Definition prec : Z := 53.
Definition emax : Z := 1024.

Definition of_nat (n : nat) : spec_float :=
  binary_normalize prec emax (Z.of_nat n) 0 false.

Definition div (x y : spec_float) : spec_float := SFdiv prec emax x y.

Definition mul (x y : spec_float) : spec_float := SFmul prec emax x y.

End Float64.

(** ** [Array.prototype] helpers *)

Section ArrayHelpers.
Context {A : Type}.

(** [a.slice(start, end)] for non-negative integer bounds. *)
Definition slice (start end_ : nat) (a : list A) : list A :=
  take (end_ - start) (drop start a).

(** Placing [x] in front of an already ordered array: [x] moves right
    only past elements the comparator puts strictly before it
    ([compareFn x y > 0]). *)
Fixpoint sort_insert (compareFn : A -> A -> Q) (x : A) (a : list A) : list A :=
  match a with
  | [] => [x]
  | y :: rest =>
      if Qle_bool (compareFn x y) 0 then x :: y :: rest
      else y :: sort_insert compareFn x rest
  end.

(** [a.sort(compareFn)] on a copy. The language requires the sort to be
    stable, so for a comparator that is a consistent ordering the result
    does not depend on the engine's algorithm; it is computed here by
    insertion from the right. *)
Definition sort (compareFn : A -> A -> Q) (a : list A) : list A :=
  foldr (sort_insert compareFn) [] a.

End ArrayHelpers.

(** ** The in-browser pipeline (TensorFlow.js) *)

Module TfModel.

(** A label/confidence pair, [{ className, confidence }]. The class name
    is [None] when the mapping has no entry for the index ([undefined]). *)
Module Item.
Record t := mk { className : option string; confidence : Q }.
End Item.

Record PredictionResult := mkPredictionResult {
  className : option string;
  confidence : Q;
  top3 : list Item.t;
  allProbabilities : list Item.t;
  preprocessedImageUrl : option string
}.

(** Pixel data of an image element as [tf.browser.fromPixels] reads it:
    rows of columns of channel intensities. The element is a decoded
    image: reading it and drawing it on the canvas do not throw. *)
Definition Pixels : Type := list (list (list Z)).

(** A rank-4 [float32] tensor. *)
Definition Tensor : Type := list (list (list (list spec_float))).

(** [tf.LayersModel]: the forward pass either throws or yields the
    nested array that [predictions.array()] resolves to. *)
Record LayersModel := mkLayersModel {
  predict : Tensor -> Error + list (list Q)
}.

(** The module-level variables. *)
Record State := mkState {
  model : option LayersModel;
  classMapping : option (gmap string string);
  backendInitialized : bool
}.

Definition initial : State :=
  {| model := None; classMapping := None; backendInitialized := false |}.

(** What a [fetch] of the class mapping resolves to. [json] is the
    outcome of [response.json()]: a rejection, [null], or a mapping. *)
Record Response := mkResponse {
  ok : bool;
  status : nat;
  json : Error + option (gmap string string)
}.

(** Outcome of [Promise.race([loadPromise, timeoutPromise])]. *)
Inductive LoadOutcome :=
| Resolved (m : option LayersModel)
| Rejected (e : Error)
| TimedOut.

(** Everything outside the module that one call may consult: the outcome
    of each awaited call, and the data URL the canvas renders for the
    resized pixels. *)
Record World := mkWorld {
  tf_setBackend : Error + bool;
  tf_ready : option Error;
  tf_ready_fallback : option Error;
  fetch_class_mapping : Error + Response;
  tf_loadLayersModel : LoadOutcome;
  canvas_toDataURL : Pixels -> string
}.

(** Calls that leave the module. *)
Inductive Event :=
| SetBackend (backend : string)
| Ready
| Fetch (url : string)
| ReadJson
| LoadLayersModel (url : string)
| Predict.

Global Instance Event_eq_dec : EqDecision Event.
Proof. solve_decision. Defined.

(** *** State, exceptions and trace *)

Record Outcome (A : Type) := mkOutcome {
  result : Error + A;
  final : State;
  trace : list Event
}.
Arguments mkOutcome {A}.
Arguments result {A}.
Arguments final {A}.
Arguments trace {A}.

Definition M (A : Type) : Type := State -> Outcome A.

Definition ret {A} (a : A) : M A :=
  fun s => mkOutcome (inr a) s [].

Definition throw {A} (e : Error) : M A :=
  fun s => mkOutcome (inl e) s [].

Definition bind {A B} (c : M A) (k : A -> M B) : M B :=
  fun s =>
    match c s with
    | mkOutcome (inl e) s1 t1 => mkOutcome (inl e) s1 t1
    | mkOutcome (inr a) s1 t1 =>
        match k a s1 with
        | mkOutcome r s2 t2 => mkOutcome r s2 (t1 ++ t2)
        end
    end.

(** [try { body } catch (error) { handler }] *)
Definition try_catch {A} (body : M A) (handler : Error -> M A) : M A :=
  fun s =>
    match body s with
    | mkOutcome (inr a) s1 t1 => mkOutcome (inr a) s1 t1
    | mkOutcome (inl e) s1 t1 =>
        match handler e s1 with
        | mkOutcome r s2 t2 => mkOutcome r s2 (t1 ++ t2)
        end
    end.

(** A step that touches neither the state nor the outside. *)
Definition lift {A} (r : Error + A) : M A :=
  fun s => mkOutcome r s [].

(** An awaited call to the outside, recorded in the trace. *)
Definition await {A} (ev : Event) (r : Error + A) : M A :=
  fun s => mkOutcome r s [ev].

Definition get {A} (f : State -> A) : M A :=
  fun s => mkOutcome (inr (f s)) s [].

Definition set_model (m : option LayersModel) : M unit :=
  fun s => mkOutcome (inr tt)
    {| model := m; classMapping := classMapping s;
       backendInitialized := backendInitialized s |} [].

Definition set_classMapping (cm : option (gmap string string)) : M unit :=
  fun s => mkOutcome (inr tt)
    {| model := model s; classMapping := cm;
       backendInitialized := backendInitialized s |} [].

Definition set_backendInitialized (b : bool) : M unit :=
  fun s => mkOutcome (inr tt)
    {| model := model s; classMapping := classMapping s;
       backendInitialized := b |} [].

Declare Scope js_scope.
Delimit Scope js_scope with js.
Notation "x <- c ;; k" := (bind c (fun x => k))
  (at level 100, c at next level, k at level 200, right associativity) : js_scope.
Notation "c ;; k" := (bind c (fun _ => k))
  (at level 100, k at level 200, right associativity) : js_scope.
Local Open Scope js_scope.

Definition of_option (r : option Error) : Error + unit :=
  match r with Some e => inl e | None => inr tt end.

(** *** [initializeBackend] *)

Definition initializeBackend (w : World) : M unit :=
  initialized <- get backendInitialized ;;
  if initialized then ret tt
  else
    try_catch
      (_ <- await (SetBackend "webgl") (tf_setBackend w) ;;
       await Ready (of_option (tf_ready w)) ;;
       set_backendInitialized true)
      (fun _ =>
         await Ready (of_option (tf_ready_fallback w)) ;;
         set_backendInitialized true).

(** *** [loadModel] *)

Definition class_mapping_url : string := "/model_tfjs/class_mapping.json".
Definition model_url : string := "/model_tfjs/model.json".

Definition race (o : LoadOutcome) : Error + option LayersModel :=
  match o with
  | Resolved m => inr m
  | Rejected e => inl e
  | TimedOut =>
      inl (newError "Model loading timeout after 2 minutes. The model may be corrupted or too large.")
  end.

(** [Object.keys(o).length]; a [TypeError] when [o] is [null]. *)
Definition Object_keys_length (o : option (gmap string string)) : M nat :=
  match o with
  | Some cm => ret (size cm)
  | None => throw (TypeError "Cannot convert undefined or null to object")
  end.

Definition loadModel (w : World) : M (option LayersModel) :=
  (m <- get model ;;
   match m with
   | Some _ => ret tt
   | None =>
       try_catch
         (initializeBackend w ;;
          response <- await (Fetch class_mapping_url) (fetch_class_mapping w) ;;
          (if ok response then ret tt
           else throw (newError ("Class mapping not found: " ++ pretty (status response)))) ;;
          cm <- await ReadJson (json response) ;;
          set_classMapping cm ;;
          _ <- Object_keys_length cm ;;
          loaded <- await (LoadLayersModel model_url) (race (tf_loadLayersModel w)) ;;
          set_model loaded ;;
          match loaded with
          | Some _ => ret tt
          | None => throw (newError "Model loaded but is null")
          end)
         (fun error =>
            set_model None ;;
            set_classMapping None ;;
            throw error)
   end) ;;
  get model.

(** *** [predictImage] *)

(** Source index that nearest-neighbour resizing reads for output
    index [i] when an axis of [old] entries is resized to [new] (corners
    not aligned, no half-pixel centres):
    [Math.min(old - 1, Math.floor((old / new) * i))], the quotient and the
    product being rounded to doubles. The operands are not negative, so
    the product is zero or positive; it is infinite or not a number only
    when [new] is 0, where no output index exists, or for sizes beyond
    the range of doubles, and [Math.min] cuts an infinite product to
    [old - 1]. *)
Definition nearest (old new i : nat) : nat :=
  match Float64.mul (Float64.div (Float64.of_nat old) (Float64.of_nat new))
                    (Float64.of_nat i) with
  | S754_zero _ => 0
  | S754_finite false m e => Nat.min (old - 1) (Z.to_nat (Z.shiftl (Z.pos m) e))
  | _ => old - 1
  end.

(** [x.resizeNearestNeighbor([newHeight, newWidth])] *)
Definition resizeNearestNeighbor (newHeight newWidth : nat) (x : Pixels) : Pixels :=
  map (fun r =>
         let row := nth (nearest (length x) newHeight r) x [] in
         map (fun c => nth (nearest (length row) newWidth c) row [])
             (seq 0 newWidth))
      (seq 0 newHeight).

(** [resized.toFloat().div(255.0).expandDims(0)] *)
Definition normalize (v : Z) : spec_float :=
  Float32.div (Float32.of_int v) (Float32.of_int 255).

Definition toInputTensor (resized : Pixels) : Tensor :=
  [ map (map (map normalize)) resized ].

(** [(a, b) => b.confidence - a.confidence] *)
Definition compareFn (a b : Item.t) : Q :=
  (Item.confidence b - Item.confidence a)%Q.

(** [probabilities.map((prob, index) => ({ className:
    classMapping![String(index)], confidence: prob }))] for a non-null
    mapping. *)
Definition allPredictions (probabilities : list Q) (cm : gmap string string)
  : list Item.t :=
  imap (fun index prob =>
          {| Item.className := cm !! pretty index; Item.confidence := prob |})
       probabilities.

(** From the array that [predictions.array()] resolved to, to the returned
    object: [probs[0]], the mapping to class names, the sorted copy and
    the object literal. *)
Definition postprocess (probs : list (list Q))
  (mapping : option (gmap string string)) (preprocessedImageUrl : string)
  : Error + PredictionResult :=
  match probs !! 0%nat with
  | None => inl (TypeError "Cannot read properties of undefined (reading 'map')")
  | Some probabilities =>
      match
        match probabilities, mapping with
        | [], _ => inr []
        | _ :: _, None =>
            inl (TypeError "Cannot read properties of null (reading '0')")
        | _ :: _, Some cm => inr (allPredictions probabilities cm)
        end
      with
      | inl e => inl e
      | inr all =>
          let sorted := sort compareFn all in
          match sorted !! 0%nat with
          | None =>
              inl (TypeError "Cannot read properties of undefined (reading 'className')")
          | Some first =>
              inr {| className := Item.className first;
                     confidence := Item.confidence first;
                     top3 := slice 0 3 sorted;
                     allProbabilities := all;
                     preprocessedImageUrl := Some preprocessedImageUrl |}
          end
      end
  end.

Definition predictImage (w : World) (imageElement : Pixels) : M PredictionResult :=
  m <- get model ;;
  (match m with
   | None => _ <- loadModel w ;; ret tt
   | Some _ => ret tt
   end) ;;
  let resized := resizeNearestNeighbor 224 224 imageElement in
  let preprocessedImageUrl := canvas_toDataURL w resized in
  let tensor := toInputTensor resized in
  m <- get model ;;
  match m with
  | None => throw (TypeError "Cannot read properties of null (reading 'predict')")
  | Some loaded =>
      probs <- await Predict (predict loaded tensor) ;;
      cm <- get classMapping ;;
      lift (postprocess probs cm preprocessedImageUrl)
  end.

(** *** Sequences of calls, each completing before the next starts *)

Inductive Call :=
| CallLoadModel (w : World)
| CallPredictImage (w : World) (imageElement : Pixels).

Definition step (c : Call) (s : State) : State * list Event :=
  match c with
  | CallLoadModel w =>
      let o := loadModel w s in (final o, trace o)
  | CallPredictImage w imageElement =>
      let o := predictImage w imageElement s in (final o, trace o)
  end.

Fixpoint run (calls : list Call) (s : State) : State * list Event :=
  match calls with
  | [] => (s, [])
  | c :: rest =>
      let '(s1, t1) := step c s in
      let '(s2, t2) := run rest s1 in
      (s2, (t1 ++ t2)%list)
  end.

(** Events that are part of loading the model artifact or the mapping. *)
Definition is_loading (ev : Event) : bool :=
  match ev with
  | Fetch _ | ReadJson | LoadLayersModel _ => true
  | _ => false
  end.

(** How many times the class mapping was requested. *)
Definition load_attempts (t : list Event) : nat :=
  length (filter (fun ev => ev = Fetch class_mapping_url) t).

End TfModel.

(** ** The HTTP client of the prediction service *)

Module Api.

#[local] Unset Elimination Schemes.
(** A parsed JSON text. Object members are kept in textual order; a
    later duplicate key overrides an earlier one. *)
Inductive JSON :=
| JNull
| JBool (b : bool)
| JNumber (q : Q)
| JString (s : string)
| JArray (elements : list JSON)
| JObject (members : list (string * JSON)).
#[local] Set Elimination Schemes.

Fixpoint lookup_member (key : string) (members : list (string * JSON))
  : option JSON :=
  match members with
  | [] => None
  | (k, v) :: rest =>
      match lookup_member key rest with
      | Some v' => Some v'
      | None => if String.eqb k key then Some v else None
      end
  end.

(** [v.key] for a key that no prototype defines: a [TypeError] through
    [null], [undefined] ([None]) when the member is absent. *)
Definition getProperty (v : JSON) (key : string) : Error + option JSON :=
  match v with
  | JNull =>
      inl (TypeError ("Cannot read properties of null (reading '" ++ key ++ "')"))
  | JObject members => inr (lookup_member key members)
  | _ => inr None
  end.

(** Truthiness of a possibly [undefined] value. *)
Definition ToBoolean (v : option JSON) : bool :=
  match v with
  | None | Some JNull => false
  | Some (JBool b) => b
  | Some (JNumber q) => negb (Qeq_bool q 0)
  | Some (JString s) => negb (String.eqb s "")
  | Some (JArray _) | Some (JObject _) => true
  end.

(** [elements.join(",")] once every element has been converted. *)
Fixpoint join (parts : list (Error + string)) : Error + string :=
  match parts with
  | [] => inr ""
  | p :: rest =>
      match p, rest with
      | inl e, _ => inl e
      | inr s, [] => inr s
      | inr s, _ :: _ =>
          match join rest with
          | inl e => inl e
          | inr t => inr (s ++ "," ++ t)
          end
      end
  end.

(** A file chosen by the user. *)
Record File := mkFile { file_name : string; size : nat }.

Record Request := mkRequest {
  url : string;
  method : string;
  body : list (string * File)
}.

Record Response := mkResponse {
  ok : bool;
  status : nat;
  json : Error + JSON
}.

(** A promise either never settles, or settles by rejecting (an [async]
    call: by throwing) or by resolving (by returning). *)
Inductive Completion (A : Type) :=
| Pending
| Settled (r : Error + A).
Arguments Pending {A}.
Arguments Settled {A}.

(** Everything outside the module that one call may consult: whether the
    image ever fires its load event, and what the promise of each [fetch]
    does. The body of a response that has arrived is read to its end. *)
Record World := mkWorld {
  VITE_API_URL : option string;
  image_onload : bool;
  canvas_toDataURL : string;
  fetch : Request -> Completion Response
}.

Record Outcome (A : Type) := mkOutcome {
  completion : Completion A;
  requests : list Request
}.
Arguments mkOutcome {A}.
Arguments completion {A}.
Arguments requests {A}.

(** [import.meta.env.VITE_API_URL || 'https://treesense.onrender.com'] *)
Definition API_URL (w : World) : string :=
  match VITE_API_URL w with
  | Some u => if String.eqb u "" then "https://treesense.onrender.com" else u
  | None => "https://treesense.onrender.com"
  end.

Definition blocked_message : string :=
  "Request blocked by browser/ad blocker. Try disabling ad blockers for 127.0.0.1:5000".

Section Client.

(** [Number.prototype.toString] *)
Variable Number_toString : Q -> string.

(** Conversion of a value to a string, as [new Error(value)] does.
    An object that carries its own [toString] member cannot be
    converted. *)
Fixpoint ToString (v : JSON) : Error + string :=
  match v with
  | JNull => inr "null"
  | JBool b => inr (if b then "true" else "false")
  | JNumber q => inr (Number_toString q)
  | JString s => inr s
  | JArray elements =>
      join (map (fun x => match x with
                          | JNull => inr ""
                          | _ => ToString x
                          end) elements)
  | JObject members =>
      match lookup_member "toString" members with
      | Some _ => inl (TypeError "Cannot convert object to primitive value")
      | None => inr "[object Object]"
      end
  end.

(** The log line interpolates [result.className] and multiplies
    [result.confidence] by 100: either conversion of a parsed value to a
    primitive fails exactly when its conversion to a string does, and
    [undefined] converts. *)
Definition convertible (v : option JSON) : Error + unit :=
  match v with
  | None => inr tt
  | Some v' =>
      match ToString v' with
      | inl e => inl e
      | inr _ => inr tt
      end
  end.

(** The own enumerable members that [{...v}] copies. *)
Definition spread (v : JSON) : list (string * JSON) :=
  match v with
  | JObject members => members
  | JArray elements => imap (fun i x => (pretty i, x)) elements
  | JString s =>
      imap (fun i c => (pretty i, JString (String c EmptyString)))
           (String.list_ascii_of_string s)
  | _ => []
  end.

Definition predict_request (w : World) (imageFile : File) : Request :=
  {| url := API_URL w ++ "/predict";
     method := "POST";
     body := [("image", imageFile)] |}.

(** The body of the [try] block; it goes on once the request has been
    answered. *)
Definition try_block (w : World) (imageFile : File)
  (preprocessedImageUrl : string) : Completion (list (string * JSON)) :=
  match fetch w (predict_request w imageFile) with
  | Pending => Pending
  | Settled (inl e) => Settled (inl e)
  | Settled (inr response) =>
      Settled (
        if negb (ok response) then
          let errorData :=
            match json response with
            | inr v => v
            | inl _ => JObject [("error", JString "Unknown error")]
            end in
          match getProperty errorData "error" with
          | inl e => inl e
          | inr v =>
              if ToBoolean v then
                match v with
                | Some v' =>
                    match ToString v' with
                    | inl e => inl e
                    | inr msg => inl (newError msg)
                    end
                | None => inl (newError ("Server error: " ++ pretty (status response)))
                end
              else inl (newError ("Server error: " ++ pretty (status response)))
          end
        else
          match json response with
          | inl e => inl e
          | inr result =>
              match getProperty result "className" with
              | inl e => inl e
              | inr className =>
                  match convertible className with
                  | inl e => inl e
                  | inr _ =>
                      match getProperty result "confidence" with
                      | inl e => inl e
                      | inr confidence =>
                          match convertible confidence with
                          | inl e => inl e
                          | inr _ =>
                              inr (spread result ++
                                   [("preprocessedImageUrl",
                                     JString preprocessedImageUrl)])%list
                          end
                      end
                  end
              end
          end)
  end.

(** The [catch] block: every error is replaced by a new one. *)
Definition catch_block (error : Error) : Error :=
  if includes "Failed to fetch" (message error)
     || String.eqb (name error) "TypeError"
  then newError blocked_message
  else newError ("API prediction failed: " ++ message error).

Definition predictImage (w : World) (imageFile : File)
  : Outcome (list (string * JSON)) :=
  if image_onload w then
    let preprocessedImageUrl := canvas_toDataURL w in
    {| completion :=
         match try_block w imageFile preprocessedImageUrl with
         | Pending => Pending
         | Settled (inr r) => Settled (inr r)
         | Settled (inl error) => Settled (inl (catch_block error))
         end;
       requests := [predict_request w imageFile] |}
  else {| completion := Pending; requests := [] |}.

End Client.

End Api.


(** ** Decision procedures and sample inputs *)


(** A 2 x 2 RGB image. *)
Definition sample_image : TfModel.Pixels :=
  [ [ [0; 128; 255]; [12; 34; 56] ];
    [ [255; 255; 255]; [1; 2; 3] ] ]%Z.


(** ** Vocabulary of the ranking properties *)

(** Every element paired with its position. *)
Definition indexed {A} (l : list A) : list (nat * A) :=
  imap (fun i x => (i, x)) l.

(** Label [i] has to come before label [j]: its probability is higher,
    or the two are equal and [i] is the smaller index. *)
Definition ranks_before (probabilities : list Q) (i j : nat) : Prop :=
  exists p q,
    probabilities !! i = Some p /\ probabilities !! j = Some q /\
    (q < p \/ (q == p /\ (i < j)%nat))%Q.

(** Descending order of confidence. *)
Definition descending (a b : TfModel.Item.t) : Prop :=
  (TfModel.Item.confidence b <= TfModel.Item.confidence a)%Q.

(** A comparator lifted to elements tagged with their position. *)
Definition on_snd {A} (compareFn : A -> A -> Q) : nat * A -> nat * A -> Q :=
  fun a b => compareFn (snd a) (snd b).

(** The order that a stable sort, descending in [key], has to produce on
    tagged elements. *)
Definition tagged_before {A} (key : A -> Q) (a b : nat * A) : Prop :=
  (key (snd b) < key (snd a) \/
   (key (snd b) == key (snd a) /\ (fst a < fst b)%nat))%Q.

(** ** A three-label model, its mapping and a world that serves them *)

Definition sample_mapping : gmap string string :=
  {[ "0" := "A"; "1" := "B"; "2" := "C" ]}.

Definition sample_model : TfModel.LayersModel :=
  {| TfModel.predict := fun _ => inr [[1 # 10; 7 # 10; 2 # 10]] |}.

Definition sample_world : TfModel.World :=
  {| TfModel.tf_setBackend := inr true;
     TfModel.tf_ready := None;
     TfModel.tf_ready_fallback := None;
     TfModel.fetch_class_mapping :=
       inr {| TfModel.ok := true; TfModel.status := 200;
              TfModel.json := inr (Some sample_mapping) |};
     TfModel.tf_loadLayersModel := TfModel.Resolved (Some sample_model);
     TfModel.canvas_toDataURL := fun _ => "data:image/jpeg;base64," |}.

(** The same world with the class mapping missing from the server. *)
Definition failing_world : TfModel.World :=
  {| TfModel.tf_setBackend := inr true;
     TfModel.tf_ready := None;
     TfModel.tf_ready_fallback := None;
     TfModel.fetch_class_mapping :=
       inr {| TfModel.ok := false; TfModel.status := 404;
              TfModel.json := inl (newError "Unexpected token <") |};
     TfModel.tf_loadLayersModel := TfModel.Resolved (Some sample_model);
     TfModel.canvas_toDataURL := fun _ => "data:image/jpeg;base64," |}.

Definition loaded_state : TfModel.State :=
  {| TfModel.model := Some sample_model;
     TfModel.classMapping := Some sample_mapping;
     TfModel.backendInitialized := true |}.

(** A model with two labels only. *)
Definition two_label_mapping : gmap string string :=
  {[ "0" := "Oak"; "1" := "Maple" ]}.

Definition two_label_model : TfModel.LayersModel :=
  {| TfModel.predict := fun _ => inr [[3 # 10; 7 # 10]] |}.

Definition two_label_state : TfModel.State :=
  {| TfModel.model := Some two_label_model;
     TfModel.classMapping := Some two_label_mapping;
     TfModel.backendInitialized := true |}.

(** A model whose first and third label tie; the two equal
    probabilities are written differently. *)
Definition tied_model : TfModel.LayersModel :=
  {| TfModel.predict := fun _ => inr [[4 # 10; 2 # 10; 2 # 5]] |}.

Definition tied_state : TfModel.State :=
  {| TfModel.model := Some tied_model;
     TfModel.classMapping := Some sample_mapping;
     TfModel.backendInitialized := true |}.

(** A model without labels: the mapping is empty and so is the vector of
    the forward pass. *)
Definition no_label_model : TfModel.LayersModel :=
  {| TfModel.predict := fun _ => inr [[]] |}.

Definition no_label_state : TfModel.State :=
  {| TfModel.model := Some no_label_model;
     TfModel.classMapping := Some ∅;
     TfModel.backendInitialized := true |}.

(** A mapping with one label under a model whose vector has two entries. *)
Definition one_label_mapping : gmap string string := {[ "0" := "Oak" ]}.

Definition one_label_state : TfModel.State :=
  {| TfModel.model := Some two_label_model;
     TfModel.classMapping := Some one_label_mapping;
     TfModel.backendInitialized := true |}.

(** ** Vocabulary of the loading properties *)

(** [initializeBackend] completes: WebGL starts, or the CPU fallback does. *)
Definition backend_starts (w : TfModel.World) : bool :=
  match TfModel.tf_setBackend w, TfModel.tf_ready w with
  | inr _, None => true
  | _, _ =>
      match TfModel.tf_ready_fallback w with
      | None => true
      | Some _ => false
      end
  end.

(** The world serves the mapping [cm] and the model [m]. *)
Definition serves (w : TfModel.World) (cm : gmap string string)
  (m : TfModel.LayersModel) : Prop :=
  backend_starts w = true /\
  (exists code, TfModel.fetch_class_mapping w =
     inr {| TfModel.ok := true; TfModel.status := code;
            TfModel.json := inr (Some cm) |}) /\
  TfModel.tf_loadLayersModel w = TfModel.Resolved (Some m).

(** [e] is the exception that one of the steps inside the [try] block of
    [loadModel] raises in the world [w]. *)
Definition raised_while_loading (w : TfModel.World) (e : Error) : Prop :=
  TfModel.tf_ready_fallback w = Some e \/
  TfModel.fetch_class_mapping w = inl e \/
  (exists response,
      TfModel.fetch_class_mapping w = inr response /\
      (TfModel.ok response = false /\
       e = newError ("Class mapping not found: " ++ pretty (TfModel.status response)) \/
       TfModel.ok response = true /\
       (TfModel.json response = inl e \/
        TfModel.json response = inr None /\
        e = TypeError "Cannot convert undefined or null to object"))) \/
  TfModel.race (TfModel.tf_loadLayersModel w) = inl e \/
  TfModel.tf_loadLayersModel w = TfModel.Resolved None /\
  e = newError "Model loaded but is null".

(** Number of calls in a sequence that found [model] null and left it
    assigned. *)
Fixpoint successful_loads (calls : list TfModel.Call) (s : TfModel.State) : nat :=
  match calls with
  | [] => 0
  | c :: rest =>
      let s1 := fst (TfModel.step c s) in
      (match TfModel.model s, TfModel.model s1 with
       | None, Some _ => 1
       | _, _ => 0
       end + successful_loads rest s1)%nat
  end.

(** ** A prediction service that answers 500 with an error message *)

Definition sample_file : Api.File :=
  {| Api.file_name := "leaf.jpg"; Api.size := 2048 |}.

Definition error_response : Api.Response :=
  {| Api.ok := false;
     Api.status := 500;
     Api.json := inr (Api.JObject [("error", Api.JString "Prediction failed")]) |}.

Definition failing_service : Api.World :=
  {| Api.VITE_API_URL := None;
     Api.image_onload := true;
     Api.canvas_toDataURL := "data:image/jpeg;base64,";
     Api.fetch := fun _ => Api.Settled (inr error_response) |}.

(** A stand-in for [Number.prototype.toString]; the sample body holds no
    number. *)
Definition sample_Number_toString (q : Q) : string := "0".

(** ** Vocabulary of the further properties of the browser pipeline *)

(** After a completed call the two references are both null or both
    assigned. *)
Definition both_or_neither (s : TfModel.State) : Prop :=
  (TfModel.model s = None /\ TfModel.classMapping s = None) \/
  (is_Some (TfModel.model s) /\ is_Some (TfModel.classMapping s)).

(** Calls made by [initializeBackend]. *)
Definition is_backend_event (ev : TfModel.Event) : bool :=
  match ev with
  | TfModel.SetBackend _ | TfModel.Ready => true
  | _ => false
  end.

(** ** The rest of the client: the health probe *)

(** [fetch(`${API_URL}/health`, { method: 'GET', cache: 'no-cache' })] *)
Definition health_request (w : Api.World) : Api.Request :=
  {| Api.url := Api.API_URL w ++ "/health";
     Api.method := "GET";
     Api.body := [] |}.

(** [checkApiHealth]: [response.ok], or [false] when the request is
    rejected (the [catch] block only logs). *)
Definition checkApiHealth (w : Api.World) : Api.Outcome bool :=
  {| Api.completion :=
       match Api.fetch w (health_request w) with
       | Api.Pending => Api.Pending
       | Api.Settled (inr response) => Api.Settled (inr (Api.ok response))
       | Api.Settled (inl _) => Api.Settled (inr false)
       end;
     Api.requests := [health_request w] |}.

(** ** The results page *)

Module Results.

Inductive Icon := CheckCircle2 | AlertCircle | Info.

(** The doubles that the literals [0.85] and [0.70] denote. *)
Definition high : Q := 7656119366529843 # 9007199254740992.
Definition medium : Q := 3152519739159347 # 4503599627370496.

Definition getConfidenceColor (confidence : Q) : string :=
  if Qle_bool high confidence then "text-green-600 dark:text-green-400"
  else if Qle_bool medium confidence then "text-yellow-600 dark:text-yellow-400"
  else "text-muted-foreground".

Definition getConfidenceBgColor (confidence : Q) : string :=
  if Qle_bool high confidence then "bg-green-500"
  else if Qle_bool medium confidence then "bg-yellow-500"
  else "bg-gray-500".

Definition getConfidenceIcon (confidence : Q) : Icon :=
  if Qle_bool high confidence then CheckCircle2
  else if Qle_bool medium confidence then AlertCircle
  else Info.

(** [s.replace(/c/g, by)] for a pattern that is the single character [c]. *)
Fixpoint replace_char (c : Ascii.ascii) (by_ : string) (s : string) : string :=
  match s with
  | EmptyString => EmptyString
  | String x rest =>
      if Ascii.eqb x c then by_ ++ replace_char c by_ rest
      else String x (replace_char c by_ rest)
  end.

(** [className.replace(/_/g, " ").replace(/-/g, "-")]; the underscore is
    character 95 and the hyphen character 45. *)
Definition formatClassName (className : string) : string :=
  replace_char (Ascii.ascii_of_nat 45) "-"
    (replace_char (Ascii.ascii_of_nat 95) " " className).

(** The rows of the full distribution: [prediction.allProbabilities] is
    sorted in place, by the comparator of the pipeline, and mapped. *)
Definition rows (allProbabilities : list TfModel.Item.t) : list TfModel.Item.t :=
  sort TfModel.compareFn allProbabilities.

(** What the effect run on mount does: it navigates away, it sets the
    image, the preprocessed image and the parsed prediction, or it
    throws. *)
Inductive Mounted :=
| Redirected (path : string)
| Loaded (imageUrl : string) (preprocessedImageUrl : option string)
         (prediction : Api.JSON)
| Crashed (e : Error).

(** A value of [sessionStorage.getItem] is falsy when it is [null] or
    the empty string. *)
Definition present (item : option string) : option string :=
  match item with
  | Some v => if String.eqb v "" then None else Some v
  | None => None
  end.

Section Page.

Variable Number_toString : Q -> string.

(** [JSON.parse] *)
Variable JSON_parse : string -> Error + Api.JSON.

(** The effect run on mount. *)
Definition useEffect (sessionStorage : gmap string string) : Mounted :=
  match present (sessionStorage !! "imageUrl"),
        present (sessionStorage !! "prediction") with
  | Some storedImage, Some storedPrediction =>
      match JSON_parse storedPrediction with
      | inl e => Crashed e
      | inr parsedPrediction =>
          match Api.getProperty parsedPrediction "className" with
          | inl e => Crashed e
          | inr _ =>
              match Api.getProperty parsedPrediction "confidence" with
              | inl e => Crashed e
              | inr confidence =>
                  match Api.convertible Number_toString confidence with
                  | inl e => Crashed e
                  | inr _ =>
                      Loaded storedImage
                        (present (sessionStorage !! "preprocessedImageUrl"))
                        parsedPrediction
                  end
              end
          end
      end
  | _, _ => Redirected "/"
  end.

End Page.

(** [handleNewUpload]: the storage it leaves and where it navigates. *)
Definition handleNewUpload (sessionStorage : gmap string string)
  : gmap string string * string :=
  (delete "prediction"
     (delete "preprocessedImageUrl" (delete "imageUrl" sessionStorage)),
   "/").

End Results.

(** ** The drop zone *)

Module UploadZone.

(** A file of a drop or of the file input, with its MIME type. *)
Record Dropped := mkDropped { file : Api.File; type : string }.

(** What a handler did: the new [isDragging], the file handed to
    [onImageSelect] if any, and whether the file input was reset. *)
Record Handled := mkHandled {
  isDragging : bool;
  selected : option Api.File;
  input_reset : bool
}.

Definition handleDrop (disabled : bool) (files : list Dropped) : Handled :=
  {| isDragging := false;
     selected :=
       if disabled then None
       else
         match List.find (fun f => String.prefix "image/" (type f)) files with
         | Some imageFile => Some (file imageFile)
         | None => None
         end;
     input_reset := false |}.

End UploadZone.

(** ** The upload page *)

Module Upload.

Record UI := mkUI {
  selectedImage : option Api.File;
  isProcessing : bool;
  processingStage : string;
  progress : nat
}.

(** Everything outside the component that one selection may consult. The
    image either loads or fails to; [ticks] is the number of times the
    progress interval fires before the prediction settles or, if it never
    does, has fired when the page is looked at. Writing to the session
    storage is taken to succeed. *)
Record World := mkWorld {
  api : Api.World;
  createObjectURL : string;
  image_loads : bool;
  ticks : nat;
  JSON_stringify : list (string * Api.JSON) -> string
}.

(** What a selection leaves behind: the component state, the session
    storage, the route navigated to, the requests sent, every value
    given to [setProgress] in order, and whether the handler has run to
    its end. *)
Record Outcome := mkOutcome {
  ui : UI;
  sessionStorage : gmap string string;
  navigated : option string;
  requests : list Api.Request;
  shown : list nat;
  settled : bool
}.

(** [prev => prev < 80 ? prev + 2 : prev] *)
Definition tick (prev : nat) : nat :=
  if (prev <? 80)%nat then (prev + 2)%nat else prev.

(** The successive values of the progress while the interval fires [n]
    times, and the value it ends on. *)
Fixpoint ticking (n : nat) (prev : nat) : list nat * nat :=
  match n with
  | O => ([], prev)
  | S n' =>
      let '(values, last) := ticking n' (tick prev) in
      (tick prev :: values, last)
  end.

Fixpoint forEach {A} (f : A -> Error + unit) (l : list A) : Error + unit :=
  match l with
  | [] => inr tt
  | x :: rest =>
      match f x with
      | inl e => inl e
      | inr _ => forEach f rest
      end
  end.

Section Page.

Variable Number_toString : Q -> string.

(** One line of the log of the top three: [pred.className] is interpolated
    and [pred.confidence] multiplied by 100. *)
Definition log_entry (pred : Api.JSON) : Error + unit :=
  match Api.getProperty pred "className" with
  | inl e => inl e
  | inr className =>
      match Api.convertible Number_toString className with
      | inl e => inl e
      | inr _ =>
          match Api.getProperty pred "confidence" with
          | inl e => inl e
          | inr confidence => Api.convertible Number_toString confidence
          end
      end
  end.

(** The log lines between the prediction and the storage: the confidence
    of the prediction, then [prediction.top3.forEach(...)]. *)
Definition log_prediction (prediction : list (string * Api.JSON)) : Error + unit :=
  match Api.convertible Number_toString (Api.lookup_member "confidence" prediction) with
  | inl e => inl e
  | inr _ =>
      match Api.lookup_member "top3" prediction with
      | None =>
          inl (TypeError "Cannot read properties of undefined (reading 'forEach')")
      | Some Api.JNull =>
          inl (TypeError "Cannot read properties of null (reading 'forEach')")
      | Some (Api.JArray top3) => forEach log_entry top3
      | Some _ => inl (TypeError "prediction.top3.forEach is not a function")
      end
  end.

(** The three [sessionStorage.setItem] calls; the last one is made only
    for a truthy [prediction.preprocessedImageUrl], converted to a
    string. *)
Definition store (w : World) (prediction : list (string * Api.JSON))
  (storage : gmap string string) : (Error + unit) * gmap string string :=
  let storage1 :=
    <["imageUrl" := createObjectURL w]>
      (<["prediction" := JSON_stringify w prediction]> storage) in
  let preprocessed := Api.lookup_member "preprocessedImageUrl" prediction in
  match preprocessed with
  | Some v =>
      if Api.ToBoolean preprocessed then
        match Api.ToString Number_toString v with
        | inl e => (inl e, storage1)
        | inr text => (inr tt, <["preprocessedImageUrl" := text]> storage1)
        end
      else (inr tt, storage1)
  | None => (inr tt, storage1)
  end.

(** The state the [catch] block of the load handler leaves. *)
Definition failed (file : Api.File) : UI :=
  {| selectedImage := Some file;
     isProcessing := false;
     processingStage := "Error occurred. Please try again.";
     progress := 0 |}.

Definition handleImageSelect (w : World) (file : Api.File)
  (state : UI) (storage : gmap string string) : Outcome :=
  if isProcessing state then
    {| ui := state; sessionStorage := storage; navigated := None;
       requests := []; shown := []; settled := true |}
  else if negb (image_loads w) then
    {| ui := {| selectedImage := Some file;
                isProcessing := false;
                processingStage := "Failed to load image. Please try again.";
                progress := 0 |};
       sessionStorage := storage; navigated := None;
       requests := []; shown := [10; 0]%nat; settled := true |}
  else
    let health := checkApiHealth (api w) in
    match Api.completion health with
    | Api.Pending =>
        {| ui := {| selectedImage := Some file;
                    isProcessing := true;
                    processingStage := "Connecting to API server...";
                    progress := 30 |};
           sessionStorage := storage; navigated := None;
           requests := Api.requests health;
           shown := [10; 30]%nat; settled := false |}
    | Api.Settled (inr true) =>
        let '(values, last) := ticking (ticks w) 40 in
        let call := Api.predictImage Number_toString (api w) file in
        let sent := (Api.requests health ++ Api.requests call)%list in
        match Api.completion call with
        | Api.Pending =>
            {| ui := {| selectedImage := Some file;
                        isProcessing := true;
                        processingStage := "Sending image to server for analysis...";
                        progress := last |};
               sessionStorage := storage; navigated := None;
               requests := sent;
               shown := ([10; 30; 40] ++ values)%list%nat;
               settled := false |}
        | Api.Settled (inl _) =>
            {| ui := failed file;
               sessionStorage := storage; navigated := None;
               requests := sent;
               shown := ([10; 30; 40] ++ values ++ [0])%list%nat;
               settled := true |}
        | Api.Settled (inr prediction) =>
            match log_prediction prediction with
            | inl _ =>
                {| ui := failed file;
                   sessionStorage := storage; navigated := None;
                   requests := sent;
                   shown := ([10; 30; 40] ++ values ++ [85; 0])%list%nat;
                   settled := true |}
            | inr _ =>
                match store w prediction storage with
                | (inl _, storage') =>
                    {| ui := failed file;
                       sessionStorage := storage'; navigated := None;
                       requests := sent;
                       shown := ([10; 30; 40] ++ values ++ [85; 90; 0])%list%nat;
                       settled := true |}
                | (inr _, storage') =>
                    {| ui := {| selectedImage := Some file;
                                isProcessing := true;
                                processingStage := "Analysis complete!";
                                progress := 100 |};
                       sessionStorage := storage';
                       navigated := Some "/results";
                       requests := sent;
                       shown := ([10; 30; 40] ++ values ++ [85; 90; 100])%list%nat;
                       settled := true |}
                end
            end
        end
    | _ =>
        {| ui := failed file;
           sessionStorage := storage; navigated := None;
           requests := Api.requests health;
           shown := [10; 30; 0]%nat; settled := true |}
    end.

End Page.

End Upload.

(** ** Services and files for the further properties *)

(** A service that answers with a prediction. *)
Definition prediction_body : Api.JSON :=
  Api.JObject
    [ ("className", Api.JString "Red_Maple");
      ("confidence", Api.JNumber (95 # 100));
      ("top3", Api.JArray
                 [ Api.JObject [ ("className", Api.JString "Red_Maple");
                                 ("confidence", Api.JNumber (95 # 100)) ];
                   Api.JObject [ ("className", Api.JString "White_Oak");
                                 ("confidence", Api.JNumber (5 # 100)) ] ]);
      ("preprocessedImageUrl", Api.JString "from-the-server") ].

Definition healthy_service : Api.World :=
  {| Api.VITE_API_URL := Some "/api";
     Api.image_onload := true;
     Api.canvas_toDataURL := "data:image/jpeg;base64,";
     Api.fetch := fun _ =>
       Api.Settled (inr {| Api.ok := true; Api.status := 200;
                           Api.json := inr prediction_body |}) |}.

(** A service that cannot be reached. *)
Definition offline_service : Api.World :=
  {| Api.VITE_API_URL := None;
     Api.image_onload := true;
     Api.canvas_toDataURL := "data:image/jpeg;base64,";
     Api.fetch := fun _ => Api.Settled (inl (TypeError "Failed to fetch")) |}.

(** A service that answers the probe and then leaves the prediction
    request unanswered. *)
Definition stalled_service : Api.World :=
  {| Api.VITE_API_URL := Some "/api";
     Api.image_onload := true;
     Api.canvas_toDataURL := "data:image/jpeg;base64,";
     Api.fetch := fun request =>
       if String.eqb (Api.method request) "GET"
       then Api.Settled (inr {| Api.ok := true; Api.status := 200;
                                Api.json := inr prediction_body |})
       else Api.Pending |}.

Definition upload_world (service : Api.World) : Upload.World :=
  {| Upload.api := service;
     Upload.createObjectURL := "blob:leaf";
     Upload.image_loads := true;
     Upload.ticks := 30;
     Upload.JSON_stringify := fun _ => "{}" |}.

Definition idle : Upload.UI :=
  {| Upload.selectedImage := None;
     Upload.isProcessing := false;
     Upload.processingStage := "";
     Upload.progress := 0 |}.

Definition dropped_files : list UploadZone.Dropped :=
  [ {| UploadZone.file := {| Api.file_name := "notes.txt"; Api.size := 12 |};
       UploadZone.type := "text/plain" |};
    {| UploadZone.file := sample_file; UploadZone.type := "image/jpeg" |};
    {| UploadZone.file := {| Api.file_name := "bark.png"; Api.size := 99 |};
       UploadZone.type := "image/png" |} ].

(** * Properties *)

(** ** Preprocessing *)

Section Preprocessing.

Import TfModel.








(** The extreme intensities are sent to 0 and to 1 exactly. *)
Example normalize_extremes :
  normalize 0 = Float32.zero /\ normalize 255 = Float32.one.
Proof. split; vm_compute; reflexivity. Qed.

End Preprocessing.

(** ** Sorting *)

Lemma sort_insert_Permutation {A} (c : A -> A -> Q) x l :
  sort_insert c x l ≡ₚ x :: l.
Proof.
  induction l as [|y l IH]; simpl; [done|].
  destruct (Qle_bool (c x y) 0); [done|].
  rewrite IH. apply perm_swap.
Qed.

Lemma sort_Permutation {A} (c : A -> A -> Q) l : sort c l ≡ₚ l.
Proof.
  induction l as [|x l IH]; simpl; [done|].
  unfold sort in *. simpl. rewrite sort_insert_Permutation. by rewrite IH.
Qed.

Lemma sort_length {A} (c : A -> A -> Q) l : length (sort c l) = length l.
Proof. apply Permutation_length, sort_Permutation. Qed.

Section SortFacts.

Context {A : Type} (key : A -> Q) (compareFn : A -> A -> Q).
Hypothesis compareFn_key : forall x y, compareFn x y = (key y - key x)%Q.

Lemma compareFn_le x y :
  Qle_bool (compareFn x y) 0 = true <-> (key y <= key x)%Q.
Proof. rewrite Qle_bool_iff, compareFn_key. split; intros H; lra. Qed.

Lemma sort_insert_snd x l :
  (sort_insert (on_snd compareFn) x l).*2 = sort_insert compareFn (snd x) (l.*2).
Proof.
  induction l as [|y l IH]; [done|].
  cbn [sort_insert]. rewrite fmap_cons. cbn [sort_insert].
  unfold on_snd at 1.
  destruct (Qle_bool (compareFn (snd x) (snd y)) 0); [done|].
  by rewrite fmap_cons, IH.
Qed.

Lemma sort_snd l : (sort (on_snd compareFn) l).*2 = sort compareFn (l.*2).
Proof.
  induction l as [|x l IH]; [done|].
  change (sort (on_snd compareFn) (x :: l))
    with (sort_insert (on_snd compareFn) x (sort (on_snd compareFn) l)).
  rewrite sort_insert_snd, IH. done.
Qed.

Lemma sort_insert_tagged x l :
  StronglySorted (tagged_before key) l ->
  Forall (fun b => (fst x < fst b)%nat) l ->
  StronglySorted (tagged_before key) (sort_insert (on_snd compareFn) x l).
Proof.
  induction l as [|y l IH]; intros Hs Hx; simpl.
  { repeat constructor. }
  apply StronglySorted_cons in Hs as [Hy Hs].
  apply Forall_cons in Hx as [Hxy Hx].
  destruct (Qle_bool (on_snd compareFn x y) 0) eqn:Hc.
  - apply compareFn_le in Hc.
    assert (Hhead : tagged_before key x y).
    { destruct (Qlt_le_dec (key (snd y)) (key (snd x))) as [Hlt|Hle];
        [by left|right]. split; [lra|done]. }
    constructor; [by constructor|]. constructor; [done|].
    apply Forall_forall. intros z Hz.
    rewrite Forall_forall in Hy, Hx.
    specialize (Hy z Hz). specialize (Hx z Hz).
    destruct Hy as [Hy|[Hy _]].
    + left. lra.
    + destruct (Qlt_le_dec (key (snd z)) (key (snd x))) as [Hlt|Hle];
        [by left|right]. split; [lra|done].
  - assert (Hlt : (key (snd x) < key (snd y))%Q).
    { apply Qnot_le_lt. intros Hle. apply compareFn_le in Hle.
      unfold on_snd in Hc. congruence. }
    constructor; [by apply IH|].
    rewrite sort_insert_Permutation. constructor; [by left|done].
Qed.

Lemma sort_tagged l :
  StronglySorted (fun a b => (fst a < fst b)%nat) l ->
  StronglySorted (tagged_before key) (sort (on_snd compareFn) l).
Proof.
  induction l as [|x l IH]; intros Hs.
  { constructor. }
  apply StronglySorted_cons in Hs as [Hx Hs].
  unfold sort in *. simpl. apply sort_insert_tagged; [by apply IH|].
  fold (sort (on_snd compareFn) l). by rewrite sort_Permutation.
Qed.

End SortFacts.

Lemma indexed_fst {A} (l : list A) : (indexed l).*1 = seq 0 (length l).
Proof.
  unfold indexed. rewrite fmap_imap.
  rewrite <- (list_fmap_id (seq 0 (length l))). apply (imap_seq_0 l id).
Qed.

Lemma indexed_snd {A} (l : list A) : (indexed l).*2 = l.
Proof.
  unfold indexed. rewrite fmap_imap.
  induction l as [|x l IH] using rev_ind; [done|].
  rewrite imap_app. simpl. by rewrite IH.
Qed.

Lemma indexed_lookup {A} (l : list A) i x :
  (i, x) ∈ indexed l <-> l !! i = Some x.
Proof.
  unfold indexed. rewrite list_elem_of_lookup. split.
  - intros [j Hj]. rewrite list_lookup_imap in Hj.
    destruct (l !! j) eqn:E; simpl in Hj; [|done]. by simplify_eq.
  - intros Hi. exists i. by rewrite list_lookup_imap, Hi.
Qed.

Lemma indexed_increasing {A} (l : list A) :
  StronglySorted (fun a b : nat * A => (fst a < fst b)%nat) (indexed l).
Proof.
  induction l as [|x l IH] using rev_ind; [constructor|].
  unfold indexed in *. rewrite imap_app. simpl.
  apply StronglySorted_app; split_and!; [|done|repeat constructor].
  intros [i a] [j b] Hi Hj. apply list_elem_of_singleton in Hj. simplify_eq.
  apply indexed_lookup, lookup_lt_Some in Hi. simpl. lia.
Qed.

Lemma StronglySorted_members {A} (R : relation A) (P : A -> Prop) l :
  StronglySorted R l -> Forall P l ->
  StronglySorted (fun a b => P a /\ P b /\ R a b) l.
Proof.
  induction 1 as [|x l Hs IH Hx]; intros HP; [constructor|].
  apply Forall_cons in HP as [Px Pl].
  constructor; [by apply IH|].
  rewrite Forall_forall in Hx, Pl. apply Forall_forall. intros y Hy. auto.
Qed.

(** ** Ranking *)

Section Ranking.

Import TfModel.

Lemma compareFn_confidence (a b : Item.t) :
  compareFn a b = (Item.confidence b - Item.confidence a)%Q.
Proof. reflexivity. Qed.

Lemma allPredictions_length probabilities cm :
  length (allPredictions probabilities cm) = length probabilities.
Proof. apply length_imap. Qed.

Lemma allPredictions_lookup probabilities cm i item :
  allPredictions probabilities cm !! i = Some item <->
  exists p, probabilities !! i = Some p /\
            item = {| Item.className := cm !! pretty i; Item.confidence := p |}.
Proof.
  unfold allPredictions. rewrite list_lookup_imap.
  destruct (probabilities !! i) as [p|]; simpl; split.
  - intros [= <-]. eauto.
  - intros (q & [= <-] & ->). done.
  - done.
  - intros (q & [=] & _).
Qed.

Lemma sort_descending (all : list Item.t) :
  StronglySorted descending (sort compareFn all).
Proof.
  rewrite <- (indexed_snd all) at 1.
  rewrite <- (sort_snd compareFn).
  apply (StronglySorted_fmap snd (tagged_before Item.confidence)).
  - intros a b [Hlt|[Heq _]]; unfold descending; lra.
  - apply (sort_tagged Item.confidence compareFn compareFn_confidence).
    apply indexed_increasing.
Qed.

Lemma ranks_before_asym probabilities i j :
  ranks_before probabilities i j -> ranks_before probabilities j i -> i = j.
Proof.
  intros (p & q & Hi & Hj & H1) (q' & p' & Hj' & Hi' & H2).
  simplify_eq. destruct H1 as [?|[? ?]], H2 as [?|[? ?]]; try lra; lia.
Qed.

(** The sorted copy is described by a permutation [order] of the label
    indices: entry [k] of the sorted array is the pair of label
    [order[k]], the pairs are in descending order of probability, and of
    two labels with equal probability the one with the smaller index
    comes first. No other order has these properties. *)
Lemma sort_allPredictions_order
  (probabilities : list Q) (cm : gmap string string) :
  let all := allPredictions probabilities cm in
  let sorted := sort compareFn all in
  StronglySorted descending sorted /\
  exists order : list nat,
    order ≡ₚ seq 0 (length probabilities) /\
    Forall2 (fun i item => all !! i = Some item) order sorted /\
    StronglySorted (ranks_before probabilities) order /\
    (forall order' : list nat,
        order' ≡ₚ seq 0 (length probabilities) ->
        StronglySorted (ranks_before probabilities) order' ->
        order' = order).
Proof.
  intros all sorted. split; [apply sort_descending|].
  set (tagged := sort (on_snd compareFn) (indexed all)).
  assert (Hperm : tagged ≡ₚ indexed all) by apply sort_Permutation.
  assert (Hmem : Forall (fun a => all !! fst a = Some (snd a)) tagged).
  { rewrite Hperm. apply Forall_forall. intros [i item] Hin.
    by apply indexed_lookup in Hin. }
  assert (Horder : tagged.*1 ≡ₚ seq 0 (length probabilities)).
  { rewrite Hperm, indexed_fst. unfold all. by rewrite allPredictions_length. }
  assert (Hsorted : StronglySorted (ranks_before probabilities) (tagged.*1)).
  { apply (StronglySorted_fmap fst
             (fun a b => all !! fst a = Some (snd a) /\
                         all !! fst b = Some (snd b) /\
                         tagged_before Item.confidence a b)).
    - intros [i a] [j b] (Ha & Hb & Hab). simpl in *.
      apply allPredictions_lookup in Ha as (p & Hp & ->).
      apply allPredictions_lookup in Hb as (q & Hq & ->).
      exists p, q. split_and!; [done..|]. exact Hab.
    - apply StronglySorted_members; [|done].
      apply (sort_tagged Item.confidence compareFn compareFn_confidence).
      apply indexed_increasing. }
  exists (tagged.*1). split_and!; [done| |done|].
  - assert (Hsnd : sorted = tagged.*2).
    { unfold sorted, tagged. by rewrite (sort_snd compareFn), indexed_snd. }
    rewrite Hsnd. apply Forall2_fmap, Forall_Forall2_diag. exact Hmem.
  - intros order' Hperm' Hsorted'.
    eapply (StronglySorted_unique_strong (ranks_before probabilities));
      [|done..|by rewrite Hperm', Horder].
    intros i j _ _. apply ranks_before_asym.
Qed.

(** Two labels with the same probability keep their label-set order, also
    when the two numbers are written differently. *)
Example ranking_of_ties :
  map Item.className
      (sort compareFn (allPredictions [4 # 10; 2 # 10; 2 # 5] sample_mapping))
  = [Some "A"; Some "C"; Some "B"].
Proof. vm_compute. reflexivity. Qed.

End Ranking.

(** ** The state-and-exception steps *)

Section Steps.

Import TfModel.

(** With the model already loaded, a prediction is one forward pass
    followed by the post-processing; nothing is assigned. *)
Lemma predictImage_loaded w imageElement s loaded :
  model s = Some loaded ->
  let resized := resizeNearestNeighbor 224 224 imageElement in
  predictImage w imageElement s =
  {| result :=
       match predict loaded (toInputTensor resized) with
       | inl e => inl e
       | inr probs => postprocess probs (classMapping s) (canvas_toDataURL w resized)
       end;
     final := s;
     trace := [Predict] |}.
Proof.
  intros Hm. unfold predictImage, bind, get, ret, await, lift. simpl.
  rewrite Hm. simpl. rewrite Hm. simpl.
  destruct (predict loaded _) as [e|probs]; simpl; reflexivity.
Qed.

Lemma predictImage_loaded_result w imageElement s loaded :
  model s = Some loaded ->
  result (predictImage w imageElement s) =
  match predict loaded
          (toInputTensor (resizeNearestNeighbor 224 224 imageElement)) with
  | inl e => inl e
  | inr probs =>
      postprocess probs (classMapping s)
        (canvas_toDataURL w (resizeNearestNeighbor 224 224 imageElement))
  end.
Proof. intros Hm. by rewrite (predictImage_loaded _ _ _ _ Hm). Qed.

Lemma pretty_index_0 : pretty 0%nat = "0".
Proof. vm_compute. reflexivity. Qed.

Lemma pretty_index_1 : pretty 1%nat = "1".
Proof. vm_compute. reflexivity. Qed.

Lemma pretty_index_2 : pretty 2%nat = "2".
Proof. vm_compute. reflexivity. Qed.

Lemma allPredictions_three a b c (cm : gmap string string) :
  allPredictions [a; b; c] cm =
  [ Item.mk (cm !! "0") a; Item.mk (cm !! "1") b; Item.mk (cm !! "2") c ].
Proof.
  unfold allPredictions. cbn [imap compose].
  rewrite pretty_index_0, pretty_index_1, pretty_index_2. reflexivity.
Qed.

(** The post-processing of the vector 0.1, 0.7, 0.2 over labels A, B, C. *)
Lemma postprocess_three_labels (cm : gmap string string) url :
  cm !! "0" = Some "A" -> cm !! "1" = Some "B" -> cm !! "2" = Some "C" ->
  postprocess [[1 # 10; 7 # 10; 2 # 10]] (Some cm) url =
  inr {| className := Some "B";
         confidence := 7 # 10;
         top3 := [ Item.mk (Some "B") (7 # 10);
                   Item.mk (Some "C") (2 # 10);
                   Item.mk (Some "A") (1 # 10) ];
         allProbabilities := [ Item.mk (Some "A") (1 # 10);
                               Item.mk (Some "B") (7 # 10);
                               Item.mk (Some "C") (2 # 10) ];
         preprocessedImageUrl := Some url |}.
Proof.
  intros HA HB HC. unfold postprocess.
  change ([[1 # 10; 7 # 10; 2 # 10]] !! 0%nat)
    with (Some [1 # 10; 7 # 10; 2 # 10]).
  cbv iota. rewrite allPredictions_three, HA, HB, HC.
  vm_compute. reflexivity.
Qed.

Lemma postprocess_inr probs mapping url r :
  postprocess probs mapping url = inr r ->
  exists probabilities cm first,
    probs !! 0%nat = Some probabilities /\
    mapping = Some cm /\
    sort compareFn (allPredictions probabilities cm) !! 0%nat = Some first /\
    r = {| className := Item.className first;
           confidence := Item.confidence first;
           top3 := slice 0 3 (sort compareFn (allPredictions probabilities cm));
           allProbabilities := allPredictions probabilities cm;
           preprocessedImageUrl := Some url |}.
Proof.
  unfold postprocess. intros H.
  destruct (probs !! 0%nat) as [probabilities|]; [|done].
  destruct probabilities as [|p ps]; [done|].
  destruct mapping as [cm|]; [|done].
  destruct (sort compareFn (allPredictions (p :: ps) cm) !! 0%nat)
    as [first|] eqn:Hfirst; [|done].
  exists (p :: ps), cm, first. by simplify_eq.
Qed.

End Steps.

(** ** Loading *)

Section Loading.

Import TfModel.

Ltac run_steps :=
  unfold loadModel, initializeBackend, try_catch, bind, get, ret, throw,
    await, lift, set_model, set_classMapping, set_backendInitialized,
    Object_keys_length, race, of_option;
  cbn -[pretty size String.append].

Ltac split_world w :=
  destruct w as [setBackend ready fallback mapping_fetch load toDataURL];
  destruct setBackend as [?|?], ready as [?|], fallback as [?|],
    mapping_fetch as [?|[[|] ? [?|[?|]]]], load as [[?|]|?|].

(** With the model in place, [loadModel] does nothing and returns it. *)
Lemma loadModel_loaded w s m :
  model s = Some m ->
  loadModel w s = {| result := inr (Some m); final := s; trace := [] |}.
Proof. intros Hm. run_steps. rewrite Hm. simpl. by rewrite Hm. Qed.

(** What one attempt at loading does to the two references. *)
Lemma loadModel_unloaded w s :
  model s = None ->
  match result (loadModel w s) with
  | inl _ =>
      model (final (loadModel w s)) = None /\
      classMapping (final (loadModel w s)) = None
  | inr returned =>
      exists m cm response,
        returned = Some m /\
        model (final (loadModel w s)) = Some m /\
        classMapping (final (loadModel w s)) = Some cm /\
        fetch_class_mapping w = inr response /\
        ok response = true /\ json response = inr (Some cm) /\
        tf_loadLayersModel w = Resolved (Some m)
  end.
Proof.
  intros Hm. destruct s as [m cm [|]]; simpl in Hm; subst m;
    split_world w; run_steps; eauto 10.
Qed.

(** The exception that leaves [loadModel] is the one a step raised. *)
Lemma loadModel_rethrows w s e :
  result (loadModel w s) = inl e -> raised_while_loading w e.
Proof.
  unfold raised_while_loading.
  destruct s as [[m|] cm b].
  { by rewrite (loadModel_loaded w (mkState (Some m) cm b) m eq_refl). }
  destruct b; split_world w; run_steps; intros [= <-];
    cbn [fetch_class_mapping tf_ready_fallback tf_loadLayersModel race];
    first
      [ by left
      | right; by left
      | right; right; left; eexists; split; [reflexivity|];
        cbn [ok json status];
        first [ left; by split
              | right; split; [reflexivity|];
                first [ by left | right; by split ] ]
      | right; right; right; by left
      | right; right; right; right; by split ].
Qed.

(** Without a model, a prediction first loads it and then proceeds as
    from the state the load left. *)
Lemma predictImage_unloaded w imageElement s :
  model s = None ->
  predictImage w imageElement s =
  match loadModel w s with
  | mkOutcome (inl e) s1 t1 => mkOutcome (inl e) s1 t1
  | mkOutcome (inr _) s1 t1 =>
      match predictImage w imageElement s1 with
      | mkOutcome r s2 t2 => mkOutcome r s2 (t1 ++ t2)
      end
  end.
Proof.
  intros Hm. pose proof (loadModel_unloaded w s Hm) as Hload.
  unfold predictImage at 1. unfold bind at 1. unfold get at 1.
  rewrite Hm. unfold bind at 1. unfold bind at 1.
  destruct (loadModel w s) as [[e|returned] s1 t1]; simpl in *; [done|].
  destruct Hload as (m & cm & response & -> & Hm1 & _).
  rewrite (predictImage_loaded w imageElement s1 m Hm1).
  unfold bind, get, await, lift. simpl. rewrite Hm1.
  destruct (predict m _); simpl; by rewrite app_nil_r.
Qed.

Lemma predictImage_inr w imageElement s r :
  result (predictImage w imageElement s) = inr r ->
  let resized := resizeNearestNeighbor 224 224 imageElement in
  exists loaded probs,
    model (final (predictImage w imageElement s)) = Some loaded /\
    predict loaded (toInputTensor resized) = inr probs /\
    postprocess probs (classMapping (final (predictImage w imageElement s)))
                (canvas_toDataURL w resized) = inr r.
Proof.
  assert (Hloaded : forall s' loaded,
             model s' = Some loaded ->
             result (predictImage w imageElement s') = inr r ->
             exists loaded probs,
               model (final (predictImage w imageElement s')) = Some loaded /\
               predict loaded (toInputTensor (resizeNearestNeighbor 224 224 imageElement))
                 = inr probs /\
               postprocess probs
                 (classMapping (final (predictImage w imageElement s')))
                 (canvas_toDataURL w (resizeNearestNeighbor 224 224 imageElement))
                 = inr r).
  { intros s' loaded Hm. rewrite (predictImage_loaded _ _ _ _ Hm). simpl.
    destruct (predict loaded _) as [e|probs] eqn:Hp; [done|]. eauto. }
  intros Hr resized. destruct (model s) as [loaded|] eqn:Hm; [by eauto|].
  rewrite (predictImage_unloaded _ _ _ Hm) in Hr |- *.
  pose proof (loadModel_unloaded w s Hm) as Hload.
  destruct (loadModel w s) as [[e|returned] s1 t1]; simpl in *; [done|].
  destruct Hload as (m & cm & response & -> & Hm1 & _).
  destruct (predictImage w imageElement s1) as [r2 s2 t2] eqn:Hp.
  simpl in *. subst r2.
  destruct (Hloaded s1 m Hm1) as (l & probs & H1 & H2 & H3);
    rewrite Hp in *; simpl in *; eauto.
Qed.

Lemma predictImage_final_loaded w imageElement s loaded :
  model s = Some loaded -> final (predictImage w imageElement s) = s.
Proof. intros Hm. by rewrite (predictImage_loaded _ _ _ _ Hm). Qed.

Lemma predictImage_final_unloaded w imageElement s :
  model s = None ->
  final (predictImage w imageElement s) = final (loadModel w s).
Proof.
  intros Hm. rewrite (predictImage_unloaded _ _ _ Hm).
  pose proof (loadModel_unloaded w s Hm) as Hload.
  destruct (loadModel w s) as [[e|returned] s1 t1]; simpl in *; [done|].
  destruct Hload as (m & cm & response & -> & Hm1 & _).
  pose proof (predictImage_final_loaded w imageElement s1 m Hm1) as Hf.
  by destruct (predictImage w imageElement s1).
Qed.

(** A world that serves the artifacts makes a load from scratch succeed,
    ending with the three requests of a full load. *)
Lemma loadModel_unloaded_serves w s cm m :
  model s = None -> serves w cm m ->
  result (loadModel w s) = inr (Some m) /\
  model (final (loadModel w s)) = Some m /\
  classMapping (final (loadModel w s)) = Some cm /\
  exists pre,
    trace (loadModel w s) =
    (pre ++ [Fetch class_mapping_url; ReadJson; LoadLayersModel model_url])%list.
Proof.
  intros Hm (Hb & [code Hf] & Hl).
  destruct s as [m0 cm0 [|]]; simpl in Hm; subst m0;
    destruct w as [setBackend ready fallback mapping_fetch load toDataURL];
    unfold backend_starts in Hb; simpl in *; subst;
    destruct setBackend as [?|?], ready as [?|], fallback as [?|];
    try discriminate Hb; run_steps; split_and!; try done;
    first [ by exists [] | by exists [SetBackend "webgl"; Ready]
          | by exists [SetBackend "webgl"; Ready; Ready]
          | by exists [SetBackend "webgl"; Ready] ].
Qed.

End Loading.

(** ** The prediction result *)

Section PredictionResult.

Import TfModel.

Lemma slice_0_3 {A} (l : list A) : slice 0 3 l = take 3 l.
Proof. reflexivity. Qed.

Lemma take_min_length {A} (n : nat) (l : list A) :
  take n l = take (Nat.min n (length l)) l.
Proof.
  destruct (Nat.min_spec n (length l)) as [[_ ->]|[Hle ->]]; [done|].
  by rewrite firstn_all, take_ge.
Qed.

(** The prediction of the three-label model, with the model in place. *)
Lemma sample_prediction :
  result (predictImage sample_world sample_image loaded_state) =
  inr {| className := Some "B";
         confidence := 7 # 10;
         top3 := [ Item.mk (Some "B") (7 # 10);
                   Item.mk (Some "C") (2 # 10);
                   Item.mk (Some "A") (1 # 10) ];
         allProbabilities := [ Item.mk (Some "A") (1 # 10);
                               Item.mk (Some "B") (7 # 10);
                               Item.mk (Some "C") (2 # 10) ];
         preprocessedImageUrl := Some "data:image/jpeg;base64," |}.
Proof.
  rewrite (predictImage_loaded_result sample_world sample_image loaded_state
             sample_model eq_refl).
  change (predict sample_model ?t) with (@inr Error _ [[1 # 10; 7 # 10; 2 # 10]]).
  cbv iota.
  apply (postprocess_three_labels sample_mapping); vm_compute; reflexivity.
Qed.

(** C1, as the code has it. For every prediction result,
    [allProbabilities] holds one label/confidence pair per entry of the
    probability vector, in label-index order: pair [i] joins
    [classMapping[String(i)]] with [probabilities[i]]. It is the sorted
    copy of that array that is in descending order of confidence, and
    [top3] is the first three elements of the sorted copy. *)
Theorem allProbabilities_index_order_top3_of_sorted
  (w : World) (imageElement : Pixels) (s : State) (r : PredictionResult) :
  result (predictImage w imageElement s) = inr r ->
  let s' := final (predictImage w imageElement s) in
  let tensor := toInputTensor (resizeNearestNeighbor 224 224 imageElement) in
  let sorted := sort compareFn (allProbabilities r) in
  (exists loaded cm probabilities rest,
      model s' = Some loaded /\ classMapping s' = Some cm /\
      predict loaded tensor = inr (probabilities :: rest) /\
      allProbabilities r = allPredictions probabilities cm /\
      length (allProbabilities r) = length probabilities) /\
  sorted ≡ₚ allProbabilities r /\
  StronglySorted descending sorted /\
  top3 r = take 3 sorted.
Proof.
  intros Hr s' tensor sorted.
  destruct (predictImage_inr _ _ _ _ Hr) as (loaded & probs & Hm & Hp & Hpost).
  apply postprocess_inr in Hpost
    as (probabilities & cm & first & Hprobs & Hcm & Hfirst & ->).
  simpl in *. split_and!.
  - destruct probs as [|row rest]; [done|]. simpl in Hprobs. simplify_eq.
    exists loaded, cm, probabilities, rest.
    split_and!; try done. apply allPredictions_length.
  - apply sort_Permutation.
  - apply sort_descending.
  - reflexivity.
Qed.

Lemma allProbabilities_index_order_top3_of_sorted_witness :
  exists r,
    result (predictImage sample_world sample_image loaded_state) = inr r /\
    sort compareFn (allProbabilities r) ≡ₚ allProbabilities r /\
    StronglySorted descending (sort compareFn (allProbabilities r)) /\
    top3 r = take 3 (sort compareFn (allProbabilities r)).
Proof.
  eexists. split; [exact sample_prediction|].
  exact (proj2 (allProbabilities_index_order_top3_of_sorted
                  sample_world sample_image loaded_state _ sample_prediction)).
Defined.

(** C1 fails as stated: for labels A, B, C and probabilities
    0.1, 0.7, 0.2 the returned [allProbabilities] is A, B, C in index
    order, which is not descending, and [top3] (B, C, A) is not its
    prefix. *)
Lemma allProbabilities_not_sorted :
  exists r,
    result (predictImage sample_world sample_image loaded_state) = inr r /\
    allProbabilities r = [ Item.mk (Some "A") (1 # 10);
                           Item.mk (Some "B") (7 # 10);
                           Item.mk (Some "C") (2 # 10) ] /\
    ~ Sorted descending (allProbabilities r) /\
    top3 r <> take 3 (allProbabilities r).
Proof.
  eexists. split; [exact sample_prediction|]. simpl. split_and!; [done| |done].
  intros Hs. apply Sorted_inv in Hs as [_ Hhead].
  apply HdRel_inv in Hhead.
  unfold descending in Hhead. simpl in Hhead. lra.
Qed.

(** C2, as the code has it. For every prediction result, the top-level
    [className] and [confidence] are those of the first element of the
    sorted copy, which is also the first element of [top3] and has the
    highest confidence of all pairs. *)
Theorem className_of_first_sorted
  (w : World) (imageElement : Pixels) (s : State) (r : PredictionResult) :
  result (predictImage w imageElement s) = inr r ->
  exists first,
    sort compareFn (allProbabilities r) !! 0%nat = Some first /\
    top3 r !! 0%nat = Some first /\
    className r = Item.className first /\
    confidence r = Item.confidence first /\
    Forall (fun item => (Item.confidence item <= Item.confidence first)%Q)
           (allProbabilities r).
Proof.
  intros Hr.
  destruct (predictImage_inr _ _ _ _ Hr) as (loaded & probs & Hm & Hp & Hpost).
  apply postprocess_inr in Hpost
    as (probabilities & cm & first & Hprobs & Hcm & Hfirst & ->).
  simpl. exists first. split_and!; try done.
  - rewrite slice_0_3, lookup_take_lt by lia. done.
  - pose proof (sort_descending (allPredictions probabilities cm)) as Hs.
    rewrite <- (sort_Permutation compareFn (allPredictions probabilities cm)).
    destruct (sort compareFn (allPredictions probabilities cm)) as [|x l];
      [done|]. simpl in Hfirst. simplify_eq.
    apply StronglySorted_cons in Hs as [Hhead _].
    constructor; [lra|]. exact Hhead.
Qed.

Lemma className_of_first_sorted_witness :
  exists r first,
    result (predictImage sample_world sample_image loaded_state) = inr r /\
    sort compareFn (allProbabilities r) !! 0%nat = Some first /\
    className r = Item.className first.
Proof.
  eexists.
  destruct (className_of_first_sorted
              sample_world sample_image loaded_state _ sample_prediction)
    as (first & H1 & _ & H3 & _).
  exists first. split_and!; [exact sample_prediction|exact H1|exact H3].
Defined.

(** C2 fails as stated: with probabilities 0.1, 0.7, 0.2 the response's
    [className] is B while [allProbabilities[0].className] is A. *)
Lemma className_differs_from_allProbabilities_head :
  exists r first,
    result (predictImage sample_world sample_image loaded_state) = inr r /\
    allProbabilities r !! 0%nat = Some first /\
    className r = Some "B" /\
    Item.className first = Some "A".
Proof.
  eexists. eexists. split; [exact sample_prediction|]. simpl. done.
Qed.

End PredictionResult.

(** ** The ranking behind the returned pairs *)

Section ReturnedRanking.

Import TfModel.

(** The prediction of a model whose first and third label tie. *)
Lemma tied_prediction :
  result (predictImage sample_world sample_image tied_state) =
  inr {| className := Some "A";
         confidence := 4 # 10;
         top3 := [ Item.mk (Some "A") (4 # 10);
                   Item.mk (Some "C") (2 # 5);
                   Item.mk (Some "B") (2 # 10) ];
         allProbabilities := [ Item.mk (Some "A") (4 # 10);
                               Item.mk (Some "B") (2 # 10);
                               Item.mk (Some "C") (2 # 5) ];
         preprocessedImageUrl := Some "data:image/jpeg;base64," |}.
Proof.
  rewrite (predictImage_loaded_result sample_world sample_image tied_state
             tied_model eq_refl).
  change (predict tied_model ?t) with (@inr Error _ [[4 # 10; 2 # 10; 2 # 5]]).
  change (canvas_toDataURL sample_world ?x) with "data:image/jpeg;base64,".
  vm_compute. reflexivity.
Qed.

(** C4. For every result that [predictImage] returns, the ranking is a
    permutation [order] of the indices of the probability vector, in
    descending order of probability, in which of two labels with equal
    probability the one with the smaller index comes first; it is the
    only such order, so it depends on the vector alone. The sorted copy
    of the returned pairs lists them in that order, the returned [top3]
    is the pairs of its first three indices, and the returned
    [className] and [confidence] are those of its first index. *)
Theorem ranking_descending_ties_by_index
  (w : World) (imageElement : Pixels) (s : State) (r : PredictionResult) :
  result (predictImage w imageElement s) = inr r ->
  let s' := final (predictImage w imageElement s) in
  let tensor := toInputTensor (resizeNearestNeighbor 224 224 imageElement) in
  exists loaded cm probabilities rest (order : list nat),
    (model s' = Some loaded /\ classMapping s' = Some cm /\
     predict loaded tensor = inr (probabilities :: rest)) /\
    order ≡ₚ seq 0 (length probabilities) /\
    StronglySorted (ranks_before probabilities) order /\
    (forall order' : list nat,
        order' ≡ₚ seq 0 (length probabilities) ->
        StronglySorted (ranks_before probabilities) order' ->
        order' = order) /\
    Forall2 (fun i item => allProbabilities r !! i = Some item)
            order (sort compareFn (allProbabilities r)) /\
    Forall2 (fun i item =>
               Item.className item = cm !! pretty i /\
               probabilities !! i = Some (Item.confidence item))
            (take 3 order) (top3 r) /\
    exists i,
      order !! 0%nat = Some i /\
      className r = cm !! pretty i /\
      probabilities !! i = Some (confidence r).
Proof.
  intros Hr s' tensor.
  destruct (predictImage_inr _ _ _ _ Hr) as (loaded & probs & Hm & Hp & Hpost).
  apply postprocess_inr in Hpost
    as (probabilities & cm & first & Hprobs & Hcm & Hfirst & ->).
  destruct probs as [|row rest]; [done|]. simpl in Hprobs. simplify_eq.
  destruct (sort_allPredictions_order probabilities cm)
    as (_ & order & Hperm & Hall & Hsorted & Huniq).
  exists loaded, cm, probabilities, rest, order.
  split_and!; try done.
  - cbn [top3]. rewrite slice_0_3.
    eapply Forall2_impl; [apply Forall2_take, Hall|].
    intros i item Hi. apply allPredictions_lookup in Hi as (p & Hp' & ->).
    by split.
  - destruct (Forall2_lookup_r _ _ _ _ _ Hall Hfirst) as (i & Hi & Hitem).
    apply allPredictions_lookup in Hitem as (p & Hp' & ->).
    exists i. by split_and!.
Qed.

Lemma ranking_descending_ties_by_index_witness :
  exists r (order : list nat),
    result (predictImage sample_world sample_image tied_state) = inr r /\
    order ≡ₚ seq 0 3 /\
    StronglySorted (ranks_before [4 # 10; 2 # 10; 2 # 5]) order /\
    Forall2 (fun i item =>
               Item.className item = sample_mapping !! pretty i /\
               [4 # 10; 2 # 10; 2 # 5] !! i = Some (Item.confidence item))
            (take 3 order) (top3 r).
Proof.
  eexists.
  destruct (ranking_descending_ties_by_index
              sample_world sample_image tied_state _ tied_prediction)
    as (loaded & cm & probabilities & rest & order
        & (Hm & Hcm & Hp) & Hperm & Hsorted & _ & _ & Htop & _).
  rewrite (predictImage_final_loaded sample_world sample_image tied_state
             tied_model eq_refl) in Hm, Hcm.
  injection Hm as <-. injection Hcm as <-.
  change (predict tied_model ?t) with (@inr Error _ [[4 # 10; 2 # 10; 2 # 5]]) in Hp.
  injection Hp as <- <-.
  exists order. split_and!;
    [exact tied_prediction | exact Hperm | exact Hsorted | exact Htop].
Defined.

End ReturnedRanking.

(** ** The three-label scenario *)

Section Scenarios.

Import TfModel.

(** C3. With the labels A, B, C under the keys 0, 1, 2 and a forward pass
    returning 0.1, 0.7, 0.2, the response has [className] B, [confidence]
    0.7 and [top3] equal to (B, 0.7), (C, 0.2), (A, 0.1) in that order. *)
Theorem scenario_three_labels
  (w : World) (imageElement : Pixels) (s : State)
  (loaded : LayersModel) (cm : gmap string string) :
  model s = Some loaded ->
  classMapping s = Some cm ->
  cm !! "0" = Some "A" -> cm !! "1" = Some "B" -> cm !! "2" = Some "C" ->
  predict loaded (toInputTensor (resizeNearestNeighbor 224 224 imageElement))
    = inr [[1 # 10; 7 # 10; 2 # 10]] ->
  exists r,
    result (predictImage w imageElement s) = inr r /\
    className r = Some "B" /\
    confidence r = 7 # 10 /\
    top3 r = [ Item.mk (Some "B") (7 # 10);
               Item.mk (Some "C") (2 # 10);
               Item.mk (Some "A") (1 # 10) ].
Proof.
  intros Hm Hcm HA HB HC Hp.
  rewrite (predictImage_loaded_result w imageElement s loaded Hm), Hp, Hcm.
  rewrite (postprocess_three_labels cm _ HA HB HC).
  eexists. split; [reflexivity|]. split_and!; reflexivity.
Qed.

Lemma scenario_three_labels_witness :
  exists r,
    result (predictImage sample_world sample_image loaded_state) = inr r /\
    className r = Some "B" /\
    confidence r = 7 # 10 /\
    top3 r = [ Item.mk (Some "B") (7 # 10);
               Item.mk (Some "C") (2 # 10);
               Item.mk (Some "A") (1 # 10) ].
Proof.
  apply (scenario_three_labels sample_world sample_image loaded_state
           sample_model sample_mapping eq_refl eq_refl);
    [vm_compute; reflexivity.. | exact eq_refl].
Defined.

End Scenarios.

(** ** Label sets with fewer than three entries *)

Section ShortLabelSets.

Import TfModel.

(** With an empty probability vector it is the access to
    [sorted[0].className] that throws; the slice is never reached. *)
Lemma postprocess_empty_vector rest mapping url :
  postprocess ([] :: rest) mapping url =
  inl (TypeError "Cannot read properties of undefined (reading 'className')").
Proof. reflexivity. Qed.

Lemma postprocess_nonempty_vector p ps rest cm url :
  exists r,
    postprocess ((p :: ps) :: rest) (Some cm) url = inr r /\
    top3 r = slice 0 3 (sort compareFn (allPredictions (p :: ps) cm)) /\
    allProbabilities r = allPredictions (p :: ps) cm.
Proof.
  unfold postprocess. cbn [lookup list_lookup].
  pose proof (sort_length compareFn (allPredictions (p :: ps) cm)) as Hlen.
  rewrite allPredictions_length in Hlen.
  destruct (sort compareFn (allPredictions (p :: ps) cm)) as [|first l] eqn:Hs;
    [done|].
  eexists. split_and!; reflexivity.
Qed.

(** C5, as the code has it. For every non-empty probability vector, also
    one with one or two entries, a prediction made with the model and
    the mapping in place returns a result; [allProbabilities] has one
    pair per entry of the vector, whatever the number of labels of the
    mapping, and [top3] is the first min(3, n) elements of the sorted
    copy, [n] being the length of the vector. *)
Theorem top3_first_min3_of_sorted
  (w : World) (imageElement : Pixels) (s : State) (loaded : LayersModel)
  (cm : gmap string string) (probabilities : list Q) (rest : list (list Q)) :
  model s = Some loaded ->
  classMapping s = Some cm ->
  predict loaded (toInputTensor (resizeNearestNeighbor 224 224 imageElement))
    = inr (probabilities :: rest) ->
  probabilities <> [] ->
  exists r,
    result (predictImage w imageElement s) = inr r /\
    length (allProbabilities r) = length probabilities /\
    top3 r = take (Nat.min 3 (length probabilities))
                  (sort compareFn (allProbabilities r)) /\
    length (top3 r) = Nat.min 3 (length probabilities).
Proof.
  intros Hm Hcm Hp Hne.
  rewrite (predictImage_loaded_result w imageElement s loaded Hm), Hp, Hcm.
  destruct probabilities as [|p ps]; [done|].
  destruct (postprocess_nonempty_vector p ps rest cm
              (canvas_toDataURL w (resizeNearestNeighbor 224 224 imageElement)))
    as (r & Hr & Htop & Hall).
  exists r. split; [exact Hr|].
  assert (Hlen : length (sort compareFn (allProbabilities r)) = length (p :: ps)).
  { by rewrite sort_length, Hall, allPredictions_length. }
  rewrite Htop, Hall, slice_0_3. split_and!.
  - apply allPredictions_length.
  - rewrite Hall in Hlen. rewrite <- Hlen. apply take_min_length.
  - rewrite Hall in Hlen. by rewrite length_take, Hlen.
Qed.

Lemma top3_first_min3_of_sorted_witness :
  exists r,
    result (predictImage sample_world sample_image two_label_state) = inr r /\
    length (allProbabilities r) = 2%nat /\
    top3 r = take (Nat.min 3 2) (sort compareFn (allProbabilities r)) /\
    length (top3 r) = Nat.min 3 2.
Proof.
  exact (top3_first_min3_of_sorted sample_world sample_image two_label_state
           two_label_model two_label_mapping [3 # 10; 7 # 10] []
           eq_refl eq_refl eq_refl ltac:(discriminate)).
Defined.

(** C5 fails as stated. With a label set of no entries, where the vector
    of the forward pass is empty, the prediction throws a [TypeError] at
    [sorted[0].className] and returns nothing. And the number of pairs
    is the length of the vector, not the number of labels: with one label
    in the mapping and a vector of two entries, [top3] holds two pairs. *)
Lemma empty_vector_throws_no_top3 :
  result (predictImage sample_world sample_image no_label_state) =
    inl (TypeError "Cannot read properties of undefined (reading 'className')") /\
  exists r,
    result (predictImage sample_world sample_image one_label_state) = inr r /\
    size one_label_mapping = 1%nat /\
    length (top3 r) = 2%nat.
Proof.
  split.
  - rewrite (predictImage_loaded_result sample_world sample_image no_label_state
               no_label_model eq_refl).
    change (predict no_label_model ?t) with (@inr Error _ [@nil Q]).
    cbv iota. apply postprocess_empty_vector.
  - rewrite (predictImage_loaded_result sample_world sample_image one_label_state
               two_label_model eq_refl).
    change (predict two_label_model ?t) with (@inr Error _ [[3 # 10; 7 # 10]]).
    change (classMapping one_label_state) with (Some one_label_mapping).
    cbv iota.
    destruct (postprocess_nonempty_vector (3 # 10) [7 # 10] [] one_label_mapping
                (canvas_toDataURL sample_world
                   (resizeNearestNeighbor 224 224 sample_image)))
      as (r & Hr & Htop & _).
    exists r. split_and!; [exact Hr | vm_compute; reflexivity |].
    rewrite Htop, slice_0_3, length_take, sort_length, allPredictions_length.
    reflexivity.
Qed.

End ShortLabelSets.

(** ** The shared references *)

Section SharedReferences.

Import TfModel.

(** C6, as the code has it. A prediction made once the model is loaded
    leaves the model reference and the class-mapping reference as they
    were; nothing is assigned. *)
Theorem predictImage_keeps_loaded_references
  (w : World) (imageElement : Pixels) (s : State) (loaded : LayersModel) :
  model s = Some loaded ->
  let s' := final (predictImage w imageElement s) in
  model s' = model s /\ classMapping s' = classMapping s.
Proof.
  intros Hm s'. unfold s'.
  by rewrite (predictImage_final_loaded _ _ _ _ Hm).
Qed.

Lemma predictImage_keeps_loaded_references_witness :
  model loaded_state = Some sample_model /\
  model (final (predictImage sample_world sample_image loaded_state))
    = model loaded_state /\
  classMapping (final (predictImage sample_world sample_image loaded_state))
    = classMapping loaded_state.
Proof.
  split; [reflexivity|].
  exact (predictImage_keeps_loaded_references
           sample_world sample_image loaded_state sample_model eq_refl).
Defined.

(** C6 fails as stated: the first prediction of a process finds both
    references null and assigns them. *)
Lemma first_prediction_assigns_references :
  model initial = None /\
  classMapping initial = None /\
  model (final (predictImage sample_world sample_image initial))
    = Some sample_model /\
  classMapping (final (predictImage sample_world sample_image initial))
    = Some sample_mapping.
Proof.
  rewrite (predictImage_final_unloaded sample_world sample_image initial eq_refl).
  split_and!; vm_compute; reflexivity.
Qed.

Lemma step_loaded c s m :
  model s = Some m ->
  fst (step c s) = s /\ Forall (fun ev => is_loading ev = false) (snd (step c s)).
Proof.
  intros Hm. destruct c as [w|w imageElement]; simpl.
  - rewrite (loadModel_loaded _ _ _ Hm). simpl. by split.
  - rewrite (predictImage_loaded _ _ _ _ Hm). simpl. split; [done|].
    by repeat constructor.
Qed.

Lemma run_loaded calls s m :
  model s = Some m ->
  fst (run calls s) = s /\ Forall (fun ev => is_loading ev = false) (snd (run calls s)).
Proof.
  intros Hm. induction calls as [|c rest IH]; simpl; [by split|].
  destruct (step_loaded c s m Hm) as [Hs Ht].
  destruct (step c s) as [s1 t1]. simpl in *. subst s1.
  destruct (run rest s) as [s2 t2]. simpl in *.
  destruct IH as [-> Ht2]. split; [done|]. by apply Forall_app.
Qed.

Lemma successful_loads_loaded calls s m :
  model s = Some m -> successful_loads calls s = 0%nat.
Proof.
  intros Hm. induction calls as [|c rest IH]; simpl; [done|].
  destruct (step_loaded c s m Hm) as [-> _]. by rewrite Hm, IH.
Qed.

Lemma load_attempts_not_loading t :
  Forall (fun ev => is_loading ev = false) t -> load_attempts t = 0%nat.
Proof.
  unfold load_attempts. induction 1 as [|ev t Hev _ IH]; [done|].
  rewrite filter_cons. destruct (decide (ev = Fetch class_mapping_url)) as [->|];
    [done|exact IH].
Qed.

(** C7, as the code has it. In every sequence of calls, each completing
    before the next starts, the model is loaded successfully at most
    once; and from a state in which it is loaded, every later call leaves
    the model and the class mapping as they are and does no loading work
    at all. *)
Theorem model_loaded_at_most_once (calls : list Call) (s : State) :
  (successful_loads calls s <= 1)%nat /\
  forall m,
    model s = Some m ->
    fst (run calls s) = s /\
    Forall (fun ev => is_loading ev = false) (snd (run calls s)) /\
    load_attempts (snd (run calls s)) = 0%nat.
Proof.
  split.
  - revert s. induction calls as [|c rest IH]; intros s; simpl; [lia|].
    destruct (model s) as [m|] eqn:Hm.
    + destruct (step_loaded c s m Hm) as [-> _].
      rewrite (successful_loads_loaded rest s m Hm). lia.
    + destruct (model (fst (step c s))) as [m1|] eqn:Hm1.
      * rewrite (successful_loads_loaded rest _ m1 Hm1). lia.
      * specialize (IH (fst (step c s))). lia.
  - intros m Hm. destruct (run_loaded calls s m Hm) as [Hs Ht].
    split_and!; [done..|]. by apply load_attempts_not_loading.
Qed.

Lemma model_loaded_at_most_once_witness :
  model loaded_state = Some sample_model /\
  fst (run [CallLoadModel failing_world;
            CallPredictImage sample_world sample_image] loaded_state)
    = loaded_state /\
  load_attempts
    (snd (run [CallLoadModel failing_world;
               CallPredictImage sample_world sample_image] loaded_state))
    = 0%nat.
Proof.
  split; [reflexivity|].
  destruct (proj2 (model_loaded_at_most_once
                     [CallLoadModel failing_world;
                      CallPredictImage sample_world sample_image]
                     loaded_state) sample_model eq_refl)
    as (Hs & _ & Ht).
  split; [exact Hs | exact Ht].
Defined.

(** C7 fails as stated: after a load that failed, the next call requests
    the class mapping again, so the loading work is done twice. *)
Lemma failed_load_is_attempted_again :
  load_attempts
    (snd (run [CallLoadModel failing_world; CallLoadModel sample_world] initial))
    = 2%nat /\
  model (fst (run [CallLoadModel failing_world; CallLoadModel sample_world] initial))
    = Some sample_model.
Proof. split; vm_compute; reflexivity. Qed.

(** C10. If any step of [loadModel] throws, the call ends with both the
    model reference and the class-mapping reference null and rethrows the
    exception of that step; a later call into a world that serves the
    artifacts then performs the whole load again, from the request for
    the class mapping to the model, and assigns both. *)
Theorem loadModel_failure_resets_references (w : World) (s : State) (e : Error) :
  result (loadModel w s) = inl e ->
  let s' := final (loadModel w s) in
  model s' = None /\
  classMapping s' = None /\
  raised_while_loading w e /\
  forall w' cm m,
    serves w' cm m ->
    result (loadModel w' s') = inr (Some m) /\
    model (final (loadModel w' s')) = Some m /\
    classMapping (final (loadModel w' s')) = Some cm /\
    exists pre,
      trace (loadModel w' s') =
      (pre ++ [Fetch class_mapping_url; ReadJson; LoadLayersModel model_url])%list.
Proof.
  intros He s'. unfold s'.
  destruct (model s) as [m0|] eqn:Hm.
  { rewrite (loadModel_loaded _ _ _ Hm) in He. discriminate He. }
  pose proof (loadModel_unloaded w s Hm) as Hload. rewrite He in Hload.
  destruct Hload as [Hnull Hcm].
  split_and!; [done|done|by apply (loadModel_rethrows w s)|].
  intros w' cm m Hserves. by apply loadModel_unloaded_serves.
Qed.

Lemma loadModel_failure_resets_references_witness :
  result (loadModel failing_world initial)
    = inl (newError "Class mapping not found: 404") /\
  model (final (loadModel failing_world initial)) = None /\
  classMapping (final (loadModel failing_world initial)) = None /\
  result (loadModel sample_world (final (loadModel failing_world initial)))
    = inr (Some sample_model).
Proof.
  assert (He : result (loadModel failing_world initial)
               = inl (newError "Class mapping not found: 404"))
    by (vm_compute; reflexivity).
  assert (Hserves : serves sample_world sample_mapping sample_model).
  { split; [reflexivity|]. split; [by exists 200%nat|reflexivity]. }
  destruct (loadModel_failure_resets_references failing_world initial _ He)
    as (Hm & Hcm & _ & Hretry).
  destruct (Hretry sample_world sample_mapping sample_model Hserves)
    as (Hr & _).
  split_and!; [exact He | exact Hm | exact Hcm | exact Hr].
Defined.

End SharedReferences.

(** ** The client of the prediction service *)

Section ApiClient.

Import Api.

Variable Number_toString : Q -> string.

Lemma catch_block_name (e : Error) : name (catch_block e) = "Error".
Proof. unfold catch_block. by destruct (_ || _). Qed.

Lemma catch_block_message (e : Error) :
  message (catch_block e) = blocked_message \/
  message (catch_block e) = "API prediction failed: " ++ message e.
Proof. unfold catch_block. destruct (_ || _); [by left|by right]. Qed.

Lemma catch_block_TypeError (msg : string) :
  catch_block (TypeError msg) = newError blocked_message.
Proof.
  unfold catch_block. cbn [name message TypeError].
  by rewrite String.eqb_refl, orb_true_r.
Qed.

Lemma catch_block_plain (msg : string) :
  includes "Failed to fetch" msg = false ->
  catch_block (newError msg) = newError ("API prediction failed: " ++ msg).
Proof. unfold catch_block. cbn [name message newError]. by intros ->. Qed.

Lemma join_error parts e :
  join parts = inl e -> In (inl e) parts.
Proof.
  induction parts as [|p rest IH]; simpl; [done|].
  destruct p as [e'|text].
  - intros [= ->]. by left.
  - destruct rest as [|p' rest']; [done|].
    destruct (join (p' :: rest')) as [e'|t]; [|done].
    intros [= ->]. right. by apply IH.
Qed.

(** The only exception a conversion to string raises is a [TypeError]. *)
Lemma ToString_error (v : JSON) (e : Error) :
  ToString Number_toString v = inl e -> name e = "TypeError".
Proof.
  revert v e. fix IH 1.
  intros [| b | q | text | elements | members] e; simpl; try discriminate.
  - assert (Hall : forall x, In x elements ->
                     forall e', ToString Number_toString x = inl e' ->
                                name e' = "TypeError").
    { revert elements. fix IHelements 1.
      intros [|x rest] y; simpl; [done|].
      intros [<-|Hin]; [apply IH | exact (IHelements rest y Hin)]. }
    intros Hjoin. apply join_error, in_map_iff in Hjoin as (x & Hx & Hin).
    destruct x; try discriminate Hx; exact (Hall _ Hin _ Hx).
  - destruct (lookup_member "toString" members); [|done].
    by intros [= <-].
Qed.

(** What the [try] block throws on a response that is not OK. *)
Lemma try_block_not_ok w imageFile url response :
  fetch w (predict_request w imageFile) = Settled (inr response) ->
  ok response = false ->
  exists thrown,
    try_block Number_toString w imageFile url = Settled (inl thrown) /\
    (name thrown = "TypeError" \/
     thrown = newError "Unknown error" \/
     thrown = newError ("Server error: " ++ pretty (status response)) \/
     exists body v text,
       json response = inr body /\
       getProperty body "error" = inr (Some v) /\
       ToString Number_toString v = inr text /\
       thrown = newError text).
Proof.
  intros Hfetch Hok. unfold try_block. rewrite Hfetch, Hok. cbn [negb].
  destruct (json response) as [rejected|body] eqn:Hjson.
  { eexists. split; [vm_compute; reflexivity|]. right. by left. }
  destruct (getProperty body "error") as [e|[v|]] eqn:Hget.
  - exists e. split; [done|]. left.
    destruct body; simpl in Hget; by simplify_eq.
  - destruct (ToBoolean (Some v));
      [|eexists; split; [done|]; right; right; by left].
    destruct (ToString Number_toString v) as [e|text] eqn:Hv.
    + exists e. split; [done|]. left. by apply ToString_error in Hv.
    + eexists. split; [done|]. right. right. right.
      exists body, v, text. done.
  - cbn [ToBoolean]. eexists. split; [done|]. right. right. by left.
Qed.

(** C8. For every response of the server whose status is not OK,
    [predictImage] issues that one request and no other, returns no
    prediction, and throws an [Error] whose message is the generic
    blocked-request text or API prediction failed followed by the
    server's own error message, by Unknown error when the body cannot be
    parsed, or by Server error and the status when the body names no
    error. A non-empty error string of the server that does not contain
    Failed to fetch is carried verbatim. *)
Theorem not_ok_response_throws_without_retry
  (w : World) (imageFile : File) (response : Response) :
  image_onload w = true ->
  fetch w (predict_request w imageFile) = Settled (inr response) ->
  ok response = false ->
  let o := predictImage Number_toString w imageFile in
  requests o = [predict_request w imageFile] /\
  exists error,
    completion o = Settled (inl error) /\
    name error = "Error" /\
    (message error = blocked_message \/
     message error = "API prediction failed: Unknown error" \/
     message error =
       "API prediction failed: " ++ "Server error: " ++ pretty (status response) \/
     exists body v text,
       json response = inr body /\
       getProperty body "error" = inr (Some v) /\
       ToString Number_toString v = inr text /\
       message error = "API prediction failed: " ++ text) /\
    (forall members text,
        json response = inr (JObject members) ->
        lookup_member "error" members = Some (JString text) ->
        text <> "" ->
        includes "Failed to fetch" text = false ->
        message error = "API prediction failed: " ++ text).
Proof.
  intros Hload Hfetch Hok o. unfold o, predictImage. rewrite Hload.
  cbn [requests completion]. split; [done|].
  destruct (try_block_not_ok w imageFile (canvas_toDataURL w) response Hfetch Hok)
    as (thrown & Hthrown & Hcases).
  exists (catch_block thrown). rewrite Hthrown.
  split_and!; [done|apply catch_block_name| |].
  - destruct Hcases as [Htype|[->|[->|(body & v & text & Hb & Hv & Ht & ->)]]].
    + left. destruct thrown as [n m]. simpl in Htype. subst n.
      by rewrite catch_block_TypeError.
    + right. left. vm_compute. reflexivity.
    + destruct (catch_block_message
                  (newError ("Server error: " ++ pretty (status response))))
        as [H|H]; [by left|right; right; by left].
    + destruct (catch_block_message (newError text)) as [H|H]; [by left|].
      right. right. right. by exists body, v, text.
  - intros members text Hjson Hmember Hne Hplain.
    unfold try_block in Hthrown. rewrite Hfetch, Hok, Hjson in Hthrown.
    cbn [negb getProperty] in Hthrown. rewrite Hmember in Hthrown.
    cbn [ToBoolean ToString] in Hthrown.
    apply String.eqb_neq in Hne. rewrite Hne in Hthrown.
    cbn [negb] in Hthrown. injection Hthrown as <-.
    by rewrite (catch_block_plain text Hplain).
Qed.

End ApiClient.

Lemma not_ok_response_throws_without_retry_witness :
  Api.requests (Api.predictImage sample_Number_toString failing_service sample_file)
    = [Api.predict_request failing_service sample_file] /\
  exists error,
    Api.completion
      (Api.predictImage sample_Number_toString failing_service sample_file)
      = Api.Settled (inl error) /\
    message error = "API prediction failed: Prediction failed".
Proof.
  destruct (not_ok_response_throws_without_retry sample_Number_toString
              failing_service sample_file error_response
              eq_refl eq_refl eq_refl)
    as (Hreq & error & Hthrow & _ & _ & Hverbatim).
  split; [exact Hreq|]. exists error. split; [exact Hthrow|].
  apply (Hverbatim [("error", Api.JString "Prediction failed")]
                   "Prediction failed");
    [reflexivity | reflexivity | discriminate | vm_compute; reflexivity].
Defined.

(** * Further properties of the browser pipeline *)

Section BrowserPipeline.

Import TfModel.

Ltac steps :=
  unfold loadModel, initializeBackend, try_catch, bind, get, ret, throw,
    await, lift, set_model, set_classMapping, set_backendInitialized,
    Object_keys_length, race, of_option;
  cbn -[pretty size String.append].

Ltac cases_of_world w :=
  destruct w as [setBackend ready fallback mapping_fetch load toDataURL];
  destruct setBackend as [?|?], ready as [?|], fallback as [?|],
    mapping_fetch as [?|[[|] ? [?|[?|]]]], load as [[?|]|?|].

(** X1. [initializeBackend] never touches the model or the class mapping.
    When it returns, the backend is marked initialised; it throws only
    when the flag was clear and the fallback [tf.ready()] threw, the
    exception being that one, and the flag stays clear. With the flag
    clear it returns exactly when WebGL or the CPU fallback starts. *)
Theorem initializeBackend_outcome (w : World) (s : State) :
  let o := initializeBackend w s in
  model (final o) = model s /\
  classMapping (final o) = classMapping s /\
  match result o with
  | inr _ =>
      backendInitialized (final o) = true /\
      (backendInitialized s = true \/ backend_starts w = true)
  | inl e =>
      backendInitialized s = false /\
      backendInitialized (final o) = false /\
      tf_ready_fallback w = Some e /\
      backend_starts w = false
  end.
Proof.
  destruct s as [m cm [|]];
    destruct w as [setBackend ready fallback mapping_fetch load toDataURL];
    destruct setBackend as [?|?], ready as [?|], fallback as [?|];
    unfold backend_starts; steps; auto 10.
Qed.

(** Once the backend is marked initialised, [initializeBackend] calls
    nothing outside the module and leaves the state as it is. *)
Lemma initializeBackend_once (w : World) (s : State) :
  backendInitialized s = true ->
  initializeBackend w s = {| result := inr tt; final := s; trace := [] |}.
Proof. intros Hb. unfold initializeBackend, bind, get, ret. simpl. by rewrite Hb. Qed.

(** X2. [loadModel] never returns null: whenever it returns, the value is
    a model and it is the one the module-level reference holds. *)
Theorem loadModel_returns_the_model
  (w : World) (s : State) (returned : option LayersModel) :
  result (loadModel w s) = inr returned ->
  exists m, returned = Some m /\ model (final (loadModel w s)) = Some m.
Proof.
  intros Hr. destruct (model s) as [m|] eqn:Hm.
  - rewrite (loadModel_loaded _ _ _ Hm) in Hr |- *. simpl in *.
    exists m. by simplify_eq.
  - pose proof (loadModel_unloaded w s Hm) as Hload. rewrite Hr in Hload.
    destruct Hload as (m & cm & response & -> & Hm' & _). eauto.
Qed.

Lemma loadModel_returns_the_model_witness :
  exists m,
    result (loadModel sample_world initial) = inr (Some m) /\
    model (final (loadModel sample_world initial)) = Some m.
Proof.
  assert (Hr : result (loadModel sample_world initial) = inr (Some sample_model))
    by (vm_compute; reflexivity).
  destruct (loadModel_returns_the_model sample_world initial _ Hr)
    as (m & Heq & Hm).
  exists m. split; [by rewrite Hr, Heq | exact Hm].
Defined.

Lemma loadModel_both_or_neither w s :
  both_or_neither s -> both_or_neither (final (loadModel w s)).
Proof.
  intros Hs. destruct (model s) as [m|] eqn:Hm.
  - by rewrite (loadModel_loaded _ _ _ Hm).
  - pose proof (loadModel_unloaded w s Hm) as Hload.
    destruct (result (loadModel w s)) as [e|returned].
    + left. exact Hload.
    + destruct Hload as (m & cm & response & _ & Hm' & Hcm & _).
      right. by rewrite Hm', Hcm.
Qed.

Lemma step_both_or_neither c s :
  both_or_neither s -> both_or_neither (fst (step c s)).
Proof.
  intros Hs. destruct c as [w|w imageElement]; simpl.
  - by apply loadModel_both_or_neither.
  - destruct (model s) as [m|] eqn:Hm.
    + by rewrite (predictImage_final_loaded _ _ _ _ Hm).
    + rewrite (predictImage_final_unloaded _ _ _ Hm).
      by apply loadModel_both_or_neither.
Qed.

(** X3. In every sequence of calls, each completing before the next
    starts, that begins with the two references both null or both
    assigned, they are again both null or both assigned after the last
    call: no call ends with a model but no mapping, or the reverse. *)
Theorem references_both_or_neither (calls : list Call) (s : State) :
  both_or_neither s -> both_or_neither (fst (run calls s)).
Proof.
  revert s. induction calls as [|c rest IH]; intros s Hs; simpl; [done|].
  pose proof (step_both_or_neither c s Hs) as H1.
  destruct (step c s) as [s1 t1]. simpl in H1.
  specialize (IH s1 H1). by destruct (run rest s1).
Qed.

Lemma references_both_or_neither_witness :
  both_or_neither initial /\
  both_or_neither
    (fst (run [CallLoadModel failing_world;
               CallPredictImage sample_world sample_image;
               CallLoadModel failing_world] initial)).
Proof.
  assert (H : both_or_neither initial) by (left; split; reflexivity).
  split; [exact H|].
  exact (references_both_or_neither _ initial H).
Defined.

(** X4. The model file is requested only after the class mapping has been
    fetched with an OK status and parsed to a mapping: a load whose
    mapping request fails never downloads the model. *)
Theorem model_requested_after_mapping (w : World) (s : State) :
  In (LoadLayersModel model_url) (trace (loadModel w s)) ->
  exists response cm,
    fetch_class_mapping w = inr response /\
    ok response = true /\
    json response = inr (Some cm).
Proof.
  destruct s as [[m|] cm b].
  { rewrite (loadModel_loaded w (mkState (Some m) cm b) m eq_refl). simpl. done. }
  destruct b; cases_of_world w; steps; intros Hin;
    first [ by eauto | exfalso; intuition discriminate ].
Qed.

Lemma model_requested_after_mapping_witness :
  In (LoadLayersModel model_url) (trace (loadModel sample_world initial)) /\
  exists response cm,
    fetch_class_mapping sample_world = inr response /\
    ok response = true /\
    json response = inr (Some cm).
Proof.
  assert (H : In (LoadLayersModel model_url)
                 (trace (loadModel sample_world initial))).
  { vm_compute. do 4 right. by left. }
  split; [exact H|].
  exact (model_requested_after_mapping sample_world initial H).
Defined.

Lemma loadModel_backend_initialized w s :
  backendInitialized s = true ->
  backendInitialized (final (loadModel w s)) = true /\
  Forall (fun ev => is_backend_event ev = false) (trace (loadModel w s)).
Proof.
  intros Hb. destruct s as [[m|] cm b]; cbn [backendInitialized] in Hb; subst b.
  { rewrite (loadModel_loaded w (mkState (Some m) cm true) m eq_refl).
    simpl. by split. }
  cases_of_world w; steps; split; try done; by repeat constructor.
Qed.

Lemma predictImage_backend_initialized w imageElement s :
  backendInitialized s = true ->
  backendInitialized (final (predictImage w imageElement s)) = true /\
  Forall (fun ev => is_backend_event ev = false)
         (trace (predictImage w imageElement s)).
Proof.
  intros Hb. destruct (model s) as [m|] eqn:Hm.
  - rewrite (predictImage_loaded _ _ _ _ Hm). simpl. split; [done|].
    by repeat constructor.
  - rewrite (predictImage_unloaded _ _ _ Hm).
    pose proof (loadModel_backend_initialized w s Hb) as [Hb1 Ht1].
    pose proof (loadModel_unloaded w s Hm) as Hload.
    destruct (loadModel w s) as [[e|returned] s1 t1]; simpl in *; [done|].
    destruct Hload as (m & cm & response & _ & Hm1 & _).
    rewrite (predictImage_loaded _ _ _ _ Hm1). simpl. split; [done|].
    apply Forall_app. split; [done|]. by repeat constructor.
Qed.

(** X5. Once the backend is marked initialised, no later call of
    [loadModel] or [predictImage] initialises it again, also when the
    loads themselves fail and are repeated: the flag stays set and no
    call to [tf.setBackend] or [tf.ready] is made. *)
Theorem backend_initialized_once (calls : list Call) (s : State) :
  backendInitialized s = true ->
  backendInitialized (fst (run calls s)) = true /\
  Forall (fun ev => is_backend_event ev = false) (snd (run calls s)).
Proof.
  revert s. induction calls as [|c rest IH]; intros s Hb; simpl; [by split|].
  assert (H1 : backendInitialized (fst (step c s)) = true /\
               Forall (fun ev => is_backend_event ev = false) (snd (step c s))).
  { destruct c as [w|w imageElement]; simpl.
    - by apply loadModel_backend_initialized.
    - by apply predictImage_backend_initialized. }
  destruct (step c s) as [s1 t1]. simpl in H1. destruct H1 as [Hb1 Ht1].
  specialize (IH s1 Hb1). destruct (run rest s1) as [s2 t2]. simpl in *.
  destruct IH as [Hb2 Ht2]. split; [done|]. by apply Forall_app.
Qed.

Lemma backend_initialized_once_witness :
  backendInitialized (final (loadModel failing_world initial)) = true /\
  Forall (fun ev => is_backend_event ev = false)
         (snd (run [CallLoadModel failing_world; CallLoadModel sample_world]
                   (final (loadModel failing_world initial)))).
Proof.
  assert (H : backendInitialized (final (loadModel failing_world initial)) = true)
    by (vm_compute; reflexivity).
  split; [exact H|].
  exact (proj2 (backend_initialized_once _ _ H)).
Defined.

Lemma loadModel_never_predicts w s : ~ In Predict (trace (loadModel w s)).
Proof.
  destruct s as [[m|] cm b].
  { rewrite (loadModel_loaded w (mkState (Some m) cm b) m eq_refl). simpl. tauto. }
  destruct b; cases_of_world w; steps; intuition discriminate.
Qed.

(** X6. When [predictImage] finds no model and the load throws, the
    prediction throws that same exception, the forward pass is not run,
    and both references are null afterwards. *)
Theorem predictImage_load_failure
  (w : World) (imageElement : Pixels) (s : State) (e : Error) :
  model s = None ->
  result (loadModel w s) = inl e ->
  let o := predictImage w imageElement s in
  result o = inl e /\
  trace o = trace (loadModel w s) /\
  ~ In Predict (trace o) /\
  model (final o) = None /\
  classMapping (final o) = None.
Proof.
  intros Hm He o. unfold o. rewrite (predictImage_unloaded _ _ _ Hm).
  pose proof (loadModel_unloaded w s Hm) as Hload.
  pose proof (loadModel_never_predicts w s) as Hnp.
  destruct (loadModel w s) as [[e'|returned] s1 t1]; simpl in *; [|done].
  destruct Hload as [Hnull Hcm]. by simplify_eq.
Qed.

Lemma predictImage_load_failure_witness :
  result (predictImage failing_world sample_image initial)
    = inl (newError "Class mapping not found: 404") /\
  model (final (predictImage failing_world sample_image initial)) = None.
Proof.
  assert (He : result (loadModel failing_world initial)
               = inl (newError "Class mapping not found: 404"))
    by (vm_compute; reflexivity).
  destruct (predictImage_load_failure failing_world sample_image initial _
              eq_refl He) as (Hr & _ & _ & Hm & _).
  split; [exact Hr | exact Hm].
Defined.

(** X7. With the model loaded, a prediction returns a result exactly when
    the forward pass yields an array whose first row is not empty and the
    class mapping is assigned. A forward pass that throws, an empty
    array, an empty first row or a null mapping all make it throw; which
    labels the mapping holds plays no part. *)
Theorem predictImage_returns_iff
  (w : World) (imageElement : Pixels) (s : State) (loaded : LayersModel) :
  model s = Some loaded ->
  (exists r, result (predictImage w imageElement s) = inr r) <->
  (exists p ps rest cm,
      predict loaded (toInputTensor (resizeNearestNeighbor 224 224 imageElement))
        = inr ((p :: ps) :: rest) /\
      classMapping s = Some cm).
Proof.
  intros Hm. rewrite (predictImage_loaded_result _ _ _ _ Hm). split.
  - intros [r Hr].
    destruct (predict loaded _) as [e|probs]; [done|].
    apply postprocess_inr in Hr
      as (probabilities & cm & first & Hprobs & Hcm & Hfirst & _).
    destruct probs as [|row rest]; [done|]. simpl in Hprobs. simplify_eq.
    destruct probabilities as [|p ps]; [done|]. by exists p, ps, rest, cm.
  - intros (p & ps & rest & cm & -> & ->).
    destruct (postprocess_nonempty_vector p ps rest cm
                (canvas_toDataURL w (resizeNearestNeighbor 224 224 imageElement)))
      as (r & Hr & _).
    by exists r.
Qed.

Lemma predictImage_returns_iff_witness :
  (exists r, result (predictImage sample_world sample_image two_label_state) = inr r) <->
  (exists p ps rest cm,
      predict two_label_model
        (toInputTensor (resizeNearestNeighbor 224 224 sample_image))
        = inr ((p :: ps) :: rest) /\
      classMapping two_label_state = Some cm).
Proof.
  exact (predictImage_returns_iff sample_world sample_image two_label_state
           two_label_model eq_refl).
Defined.


(** The product is rounded: resizing 68 rows to 224 reads row 50 for
    output row 168, where the exact quotient 168 * 68 / 224 is 51. *)
Example nearest_rounds_down : nearest 68 224 168 = 50%nat.
Proof. vm_compute. reflexivity. Qed.





(** The sorted copy of a result's [allProbabilities]. *)
Lemma allProbabilities_index_order_top3_sorted_facts
  (w : World) (imageElement : Pixels) (s : State) (r : PredictionResult) :
  result (predictImage w imageElement s) = inr r ->
  sort compareFn (allProbabilities r) ≡ₚ allProbabilities r /\
  StronglySorted descending (sort compareFn (allProbabilities r)) /\
  top3 r = take 3 (sort compareFn (allProbabilities r)).
Proof.
  intros Hr.
  destruct (predictImage_inr _ _ _ _ Hr) as (loaded & probs & _ & _ & Hpost).
  apply postprocess_inr in Hpost as (probabilities & cm & first & _ & _ & _ & ->).
  simpl. split_and!; [apply sort_Permutation | apply sort_descending | done].
Qed.

(** X9. For every prediction result, the sorted copy of
    [allProbabilities] is [top3] followed by the remaining pairs, and no
    remaining pair has a higher confidence than a pair of [top3]: [top3]
    holds three pairs of highest confidence, each of them a pair of
    [allProbabilities]. *)
Theorem top3_dominates_the_rest
  (w : World) (imageElement : Pixels) (s : State) (r : PredictionResult) :
  result (predictImage w imageElement s) = inr r ->
  exists rest,
    sort compareFn (allProbabilities r) = (top3 r ++ rest)%list /\
    (forall a b, a ∈ top3 r -> b ∈ rest ->
                 (Item.confidence b <= Item.confidence a)%Q) /\
    (forall a, a ∈ top3 r -> a ∈ allProbabilities r).
Proof.
  intros Hr.
  destruct (allProbabilities_index_order_top3_sorted_facts w imageElement s r Hr)
    as (Hperm & Hsorted & Htop).
  exists (drop 3 (sort compareFn (allProbabilities r))).
  rewrite Htop. split_and!.
  - by rewrite take_drop.
  - rewrite <- (take_drop 3 (sort compareFn (allProbabilities r))) in Hsorted.
    apply StronglySorted_app in Hsorted as (Hcross & _ & _).
    intros a b Ha Hb. exact (Hcross a b Ha Hb).
  - intros a Ha. rewrite <- Hperm. by apply (subseteq_take 3).
Qed.

Lemma top3_dominates_the_rest_witness :
  exists r rest,
    result (predictImage sample_world sample_image loaded_state) = inr r /\
    sort compareFn (allProbabilities r) = (top3 r ++ rest)%list.
Proof.
  eexists.
  destruct (top3_dominates_the_rest sample_world sample_image loaded_state _
              sample_prediction) as (rest & Hsplit & _).
  exists rest. split; [exact sample_prediction | exact Hsplit].
Defined.

End BrowserPipeline.

(** * Further properties of the client *)

Section ClientMore.

Import Api.

Variable Number_toString : Q -> string.

Lemma try_block_returns w imageFile url r :
  try_block Number_toString w imageFile url = Settled (inr r) ->
  exists response result,
    fetch w (predict_request w imageFile) = Settled (inr response) /\
    ok response = true /\
    json response = inr result /\
    result <> JNull /\
    r = (spread result ++ [("preprocessedImageUrl", JString url)])%list.
Proof.
  unfold try_block. intros Hr.
  destruct (fetch w (predict_request w imageFile)) as [|[e|response]] eqn:Hf;
    [done..|].
  injection Hr as Hr.
  destruct (ok response) eqn:Hok; cbn [negb] in Hr.
  2:{ destruct (getProperty _ "error") as [e|v]; [done|].
      destruct (ToBoolean v); [|done].
      destruct v as [v|]; [|done]. by destruct (ToString _ v). }
  destruct (json response) as [e|result] eqn:Hj; [done|].
  destruct (getProperty result "className") as [e|className] eqn:Hc; [done|].
  destruct (convertible _ className); [done|].
  destruct (getProperty result "confidence") as [e|confidence]; [done|].
  destruct (convertible _ confidence); [done|].
  exists response, result.
  assert (Hnull : result <> JNull) by (intros ->; discriminate Hc).
  split_and!; try done. by simplify_eq.
Qed.

(** The call stays pending exactly when the image never loads or the
    request is never answered; a request is sent once the image has
    loaded. *)
Lemma predictImage_pending (w : World) (imageFile : File) :
  completion (predictImage Number_toString w imageFile) = Pending <->
  image_onload w = false \/
  fetch w (predict_request w imageFile) = Pending.
Proof.
  unfold predictImage, try_block.
  destruct (image_onload w); cbn [completion]; [|by split; [left|]].
  destruct (fetch w (predict_request w imageFile)) as [|[e|response]].
  - split; [by right|done].
  - split; [done|by intros [|]].
  - split; [|by intros [|]]. by destruct (if negb (ok response) then _ else _).
Qed.

Lemma predictImage_requests (w : World) (imageFile : File) :
  requests (predictImage Number_toString w imageFile) =
  if image_onload w then [predict_request w imageFile] else [].
Proof. unfold predictImage. by destruct (image_onload w). Qed.


(** What a returned result says about the request. *)
Lemma predictImage_returned
  (w : World) (imageFile : File) (r : list (string * JSON)) :
  completion (predictImage Number_toString w imageFile) = Settled (inr r) ->
  image_onload w = true /\
  requests (predictImage Number_toString w imageFile)
    = [predict_request w imageFile] /\
  exists response result,
    fetch w (predict_request w imageFile) = Settled (inr response) /\
    ok response = true /\
    json response = inr result /\
    result <> JNull /\
    r = (spread result ++
         [("preprocessedImageUrl", JString (canvas_toDataURL w))])%list.
Proof.
  unfold predictImage. destruct (image_onload w); [|done].
  cbn [completion requests]. intros Hr. split_and!; [done..|].
  apply (try_block_returns w imageFile (canvas_toDataURL w) r).
  destruct (try_block _ _ _ _) as [|[e|r']]; by simplify_eq.
Qed.

(** X11. The client returns a result only for a request that was answered
    with an OK status and a body that parses to something other than
    null, and only once the image has loaded; the result is then the
    members of that body followed by [preprocessedImageUrl]. *)
Theorem predictImage_returns_only_on_ok
  (w : World) (imageFile : File) (r : list (string * JSON)) :
  completion (predictImage Number_toString w imageFile) = Settled (inr r) ->
  image_onload w = true /\
  requests (predictImage Number_toString w imageFile)
    = [predict_request w imageFile] /\
  exists response result,
    fetch w (predict_request w imageFile) = Settled (inr response) /\
    ok response = true /\
    json response = inr result /\
    result <> JNull /\
    r = (spread result ++
         [("preprocessedImageUrl", JString (canvas_toDataURL w))])%list.
Proof. apply predictImage_returned. Qed.

Lemma lookup_member_snoc key k v members :
  lookup_member key (members ++ [(k, v)]) =
  if String.eqb k key then Some v else lookup_member key members.
Proof.
  induction members as [|[k' v'] rest IH]; simpl.
  - by destruct (String.eqb k key).
  - rewrite IH. by destruct (String.eqb k key).
Qed.

(** X12. In every result of the client, [preprocessedImageUrl] is the data
    URL of the client's own canvas, also when the server sent a member of
    that name; every other member of the object the server sent is
    passed through unchanged. *)
Theorem preprocessedImageUrl_is_the_clients
  (w : World) (imageFile : File) (r : list (string * JSON)) :
  completion (predictImage Number_toString w imageFile) = Settled (inr r) ->
  lookup_member "preprocessedImageUrl" r = Some (JString (canvas_toDataURL w)) /\
  forall response members key,
    fetch w (predict_request w imageFile) = Settled (inr response) ->
    json response = inr (JObject members) ->
    key <> "preprocessedImageUrl" ->
    lookup_member key r = lookup_member key members.
Proof.
  intros Hr.
  destruct (predictImage_returned w imageFile r Hr)
    as (_ & _ & response & result & Hf & _ & Hj & _ & ->).
  split.
  - by rewrite lookup_member_snoc.
  - intros response' members key Hf' Hj' Hkey.
    rewrite Hf in Hf'. injection Hf' as <-.
    rewrite Hj in Hj'. injection Hj' as ->.
    rewrite lookup_member_snoc. cbn [spread].
    destruct (String.eqb_spec "preprocessedImageUrl" key); [congruence|done].
Qed.

(** X13. Whatever goes wrong, the exception that leaves the client is a
    fresh [Error]: its name is Error and its message is the blocked-request
    text or starts with API prediction failed; the original exception
    never escapes. A request rejected with a [TypeError], as a network
    failure is, always gives the blocked-request text. *)
Theorem predictImage_error_shape
  (w : World) (imageFile : File) (e : Error) :
  completion (predictImage Number_toString w imageFile) = Settled (inl e) ->
  name e = "Error" /\
  (message e = blocked_message \/
   exists m, message e = "API prediction failed: " ++ m) /\
  forall rejected,
    fetch w (predict_request w imageFile) = Settled (inl rejected) ->
    name rejected = "TypeError" ->
    message e = blocked_message.
Proof.
  unfold predictImage. destruct (image_onload w); [|done].
  cbn [completion]. intros He.
  destruct (try_block Number_toString w imageFile (canvas_toDataURL w))
    as [|[thrown|r]] eqn:Ht; [done| |done].
  injection He as <-. split_and!.
  - apply catch_block_name.
  - destruct (catch_block_message thrown) as [H|H]; [by left|right; eauto].
  - intros rejected Hf Hname. unfold try_block in Ht. rewrite Hf in Ht.
    injection Ht as <-. destruct rejected as [n m]. simpl in Hname. subst n.
    by rewrite catch_block_TypeError.
Qed.

End ClientMore.

Lemma healthy_service_returns :
  exists r,
    Api.completion
      (Api.predictImage sample_Number_toString healthy_service sample_file)
    = Api.Settled (inr r).
Proof. eexists. vm_compute. reflexivity. Qed.

Lemma predictImage_returns_only_on_ok_witness :
  exists r response,
    Api.completion
      (Api.predictImage sample_Number_toString healthy_service sample_file)
    = Api.Settled (inr r) /\
    Api.fetch healthy_service (Api.predict_request healthy_service sample_file)
    = Api.Settled (inr response) /\
    Api.ok response = true.
Proof.
  destruct healthy_service_returns as [r Hr].
  destruct (predictImage_returns_only_on_ok sample_Number_toString
              healthy_service sample_file r Hr)
    as (_ & _ & response & result & Hf & Hok & _).
  exists r, response. split_and!; [exact Hr | exact Hf | exact Hok].
Defined.

Lemma preprocessedImageUrl_is_the_clients_witness :
  exists r,
    Api.completion
      (Api.predictImage sample_Number_toString healthy_service sample_file)
    = Api.Settled (inr r) /\
    Api.lookup_member "preprocessedImageUrl" r
    = Some (Api.JString "data:image/jpeg;base64,") /\
    Api.lookup_member "className" r = Some (Api.JString "Red_Maple").
Proof.
  destruct healthy_service_returns as [r Hr].
  destruct (preprocessedImageUrl_is_the_clients sample_Number_toString
              healthy_service sample_file r Hr) as [Hurl Hrest].
  exists r. split_and!; [exact Hr | exact Hurl |].
  rewrite (Hrest _ _ "className" eq_refl eq_refl); [reflexivity|discriminate].
Defined.

Lemma predictImage_error_shape_witness :
  exists e,
    Api.completion
      (Api.predictImage sample_Number_toString offline_service sample_file)
    = Api.Settled (inl e) /\
    message e = Api.blocked_message.
Proof.
  assert (He : Api.completion
                 (Api.predictImage sample_Number_toString offline_service sample_file)
               = Api.Settled (inl (newError Api.blocked_message)))
    by (vm_compute; reflexivity).
  exists (newError Api.blocked_message). split; [exact He|].
  destruct (predictImage_error_shape sample_Number_toString
              offline_service sample_file _ He) as (_ & _ & Hblocked).
  exact (Hblocked (TypeError "Failed to fetch") eq_refl eq_refl).
Defined.

(** * Properties of the results page *)

Section ResultsPage.

Import Results.

Lemma replace_char_length c d s :
  String.length (replace_char c (String d EmptyString) s) = String.length s.
Proof.
  induction s as [|x rest IH]; [done|]. cbn [replace_char].
  destruct (Ascii.eqb x c);
    [change (String d EmptyString ++ ?t) with (String d t)|];
    cbn [String.length]; by rewrite IH.
Qed.

Lemma replace_char_get c d s i :
  String.get i (replace_char c (String d EmptyString) s) =
  (fun x => if Ascii.eqb x c then d else x) <$> String.get i s.
Proof.
  revert i. induction s as [|x rest IH]; intros i; [done|].
  cbn [replace_char].
  destruct (Ascii.eqb x c) eqn:Hx;
    [change (String d EmptyString ++ ?t) with (String d t)|];
    destruct i as [|i];
    cbn [String.get fmap option_fmap option_map]; rewrite ?Hx, ?IH; done.
Qed.

Lemma replace_char_same c s : replace_char c (String c EmptyString) s = s.
Proof.
  induction s as [|x rest IH]; [done|]. cbn [replace_char].
  destruct (Ascii.eqb_spec x c) as [->|_];
    [change (String c EmptyString ++ ?t) with (String c t)|];
    by rewrite IH.
Qed.

Lemma replace_char_absent c d s :
  (forall i, String.get i s <> Some c) ->
  replace_char c (String d EmptyString) s = s.
Proof.
  induction s as [|x rest IH]; intros Hs; [done|]. cbn [replace_char].
  destruct (Ascii.eqb_spec x c) as [->|_].
  - by destruct (Hs 0%nat).
  - f_equal. apply IH. intros i. exact (Hs (S i)).
Qed.

(** X14. [formatClassName] keeps the length of the name and every
    character except the underscore, which becomes a space at the same
    position; no underscore is left, so formatting a formatted name
    changes nothing. *)
Theorem formatClassName_replaces_underscores (className : string) :
  String.length (formatClassName className) = String.length className /\
  (forall i,
      String.get i (formatClassName className) =
      (fun x => if Ascii.eqb x (Ascii.ascii_of_nat 95)
                then Ascii.ascii_of_nat 32 else x)
        <$> String.get i className) /\
  (forall i,
      String.get i (formatClassName className) <> Some (Ascii.ascii_of_nat 95)) /\
  formatClassName (formatClassName className) = formatClassName className.
Proof.
  unfold formatClassName.
  change "-" with (String (Ascii.ascii_of_nat 45) EmptyString).
  change " " with (String (Ascii.ascii_of_nat 32) EmptyString).
  rewrite !replace_char_same.
  assert (Hget : forall i,
             String.get i (replace_char (Ascii.ascii_of_nat 95)
                             (String (Ascii.ascii_of_nat 32) EmptyString) className)
             <> Some (Ascii.ascii_of_nat 95)).
  { intros i. rewrite replace_char_get.
    destruct (String.get i className) as [x|]; simpl; [|done].
    destruct (Ascii.eqb_spec x (Ascii.ascii_of_nat 95)); [done|congruence]. }
  split_and!.
  - apply replace_char_length.
  - intros i. apply replace_char_get.
  - exact Hget.
  - by apply replace_char_absent.
Qed.

Example formatClassName_Red_Maple :
  formatClassName "Red_Maple" = "Red Maple" /\
  formatClassName "Tulip-Poplar_" = "Tulip-Poplar ".
Proof. split; reflexivity. Qed.

(** X15. The colour, the background and the icon of a confidence always
    show the same band: green and the check mark from the double 0.85
    upwards, yellow and the alert from the double 0.70 upwards, grey and
    the information sign below; and a higher confidence never falls into
    a lower band. *)
Theorem confidence_indicators_agree (confidence : Q) :
  (getConfidenceIcon confidence = CheckCircle2 <->
   getConfidenceColor confidence = "text-green-600 dark:text-green-400") /\
  (getConfidenceIcon confidence = CheckCircle2 <->
   getConfidenceBgColor confidence = "bg-green-500") /\
  (getConfidenceIcon confidence = AlertCircle <->
   getConfidenceColor confidence = "text-yellow-600 dark:text-yellow-400") /\
  (getConfidenceIcon confidence = AlertCircle <->
   getConfidenceBgColor confidence = "bg-yellow-500") /\
  (getConfidenceIcon confidence = CheckCircle2 <-> (high <= confidence)%Q) /\
  (getConfidenceIcon confidence = Info <-> (confidence < medium)%Q) /\
  forall higher,
    (confidence <= higher)%Q ->
    (getConfidenceIcon confidence = CheckCircle2 ->
     getConfidenceIcon higher = CheckCircle2) /\
    (getConfidenceIcon higher = Info -> getConfidenceIcon confidence = Info).
Proof.
  assert (Hlt : (medium < high)%Q) by (unfold medium, high, Qlt; simpl; lia).
  assert (Hicon : forall c,
             (getConfidenceIcon c = CheckCircle2 <-> (high <= c)%Q) /\
             (getConfidenceIcon c = Info <-> (c < medium)%Q)).
  { intros c. unfold getConfidenceIcon.
    destruct (Qle_bool high c) eqn:Hh.
    - apply Qle_bool_iff in Hh. split; split; try done.
      intros Hc. exfalso. apply (Qlt_irrefl medium).
      eapply Qlt_le_trans; [exact Hlt|]. eapply Qle_trans; [exact Hh|].
      by apply Qlt_le_weak.
    - assert (Hnh : ~ (high <= c)%Q).
      { intros Hle. apply Qle_bool_iff in Hle. congruence. }
      destruct (Qle_bool medium c) eqn:Hm.
      + apply Qle_bool_iff in Hm. split; split; try done.
        intros Hc. exfalso. apply (Qlt_irrefl c).
        eapply Qlt_le_trans; [exact Hc|exact Hm].
      + assert (Hnm : ~ (medium <= c)%Q).
        { intros Hle. apply Qle_bool_iff in Hle. congruence. }
        split; split; try done. intros _. by apply Qnot_le_lt. }
  unfold getConfidenceColor, getConfidenceBgColor.
  split_and!.
  1-4: unfold getConfidenceIcon;
       destruct (Qle_bool high confidence), (Qle_bool medium confidence);
       split; intros H; done.
  - apply Hicon.
  - apply Hicon.
  - intros higher Hle. split.
    + intros Hc. apply Hicon. apply Hicon in Hc.
      eapply Qle_trans; [exact Hc|exact Hle].
    + intros Hi. apply Hicon. apply Hicon in Hi.
      eapply Qle_lt_trans; [exact Hle|exact Hi].
Qed.

Lemma sort_of_sorted (l : list TfModel.Item.t) :
  StronglySorted descending l -> sort TfModel.compareFn l = l.
Proof.
  induction 1 as [|x l Hs IH Hx]; [done|].
  change (sort TfModel.compareFn (x :: l))
    with (sort_insert TfModel.compareFn x (sort TfModel.compareFn l)).
  rewrite IH. destruct l as [|y rest]; [done|]. simpl.
  apply Forall_cons in Hx as [Hxy _]. unfold descending in Hxy.
  assert (Hle : Qle_bool (TfModel.compareFn x y) 0 = true).
  { apply Qle_bool_iff. unfold TfModel.compareFn. lra. }
  by rewrite Hle.
Qed.

(** X16. The rows of the full distribution are a rearrangement of
    [allProbabilities] in descending order of confidence, and sorting
    again leaves them as they are: the array that a first render sorted
    in place is shown in the same order by every later render. *)
Theorem rows_sorted_once (allProbabilities : list TfModel.Item.t) :
  rows allProbabilities ≡ₚ allProbabilities /\
  StronglySorted descending (rows allProbabilities) /\
  rows (rows allProbabilities) = rows allProbabilities.
Proof.
  unfold rows. split_and!.
  - apply sort_Permutation.
  - apply sort_descending.
  - apply sort_of_sorted, sort_descending.
Qed.

Variable Number_toString : Q -> string.
Variable JSON_parse : string -> Error + Api.JSON.

Lemma present_Some item v :
  present item = Some v <-> item = Some v /\ v <> "".
Proof.
  unfold present. destruct item as [x|].
  - destruct (String.eqb_spec x "") as [->|Hne]; split.
    + done.
    + by intros [[= <-] Hv].
    + intros [= <-]. by split.
    + by intros [[= <-] _].
  - split; [done|]. by intros [? _].
Qed.

(** The three ways the effect run on mount can end. *)
Lemma useEffect_cases (sessionStorage : gmap string string) :
  match useEffect Number_toString JSON_parse sessionStorage with
  | Redirected path =>
      path = "/" /\
      (present (sessionStorage !! "imageUrl") = None \/
       present (sessionStorage !! "prediction") = None)
  | Loaded imageUrl preprocessed prediction =>
      sessionStorage !! "imageUrl" = Some imageUrl /\ imageUrl <> "" /\
      prediction <> Api.JNull /\
      preprocessed = present (sessionStorage !! "preprocessedImageUrl") /\
      exists text,
        sessionStorage !! "prediction" = Some text /\ text <> "" /\
        JSON_parse text = inr prediction
  | Crashed e =>
      exists imageUrl text,
        present (sessionStorage !! "imageUrl") = Some imageUrl /\
        present (sessionStorage !! "prediction") = Some text
  end.
Proof.
  unfold useEffect.
  destruct (present (sessionStorage !! "imageUrl")) as [imageUrl|] eqn:Hi;
    [|cbv iota; split; [done|by left]].
  destruct (present (sessionStorage !! "prediction")) as [text|] eqn:Hp;
    [|cbv iota; split; [done|by right]].
  apply present_Some in Hi as [Hi Hine].
  pose proof Hp as Hp'. apply present_Some in Hp as [Hp Hpne].
  destruct (JSON_parse text) as [e|parsed] eqn:Hparse;
    [by exists imageUrl, text|].
  destruct (Api.getProperty parsed "className") as [e|c] eqn:Hc;
    [by exists imageUrl, text|].
  destruct (Api.getProperty parsed "confidence") as [e|confidence];
    [by exists imageUrl, text|].
  destruct (Api.convertible Number_toString confidence);
    [by exists imageUrl, text|].
  split_and!; try done.
  - intros ->. discriminate Hc.
  - by exists text.
Qed.

(** X17. Mounting the results page navigates to the upload page exactly
    when the stored image URL or the stored prediction is missing or
    empty, and never anywhere else; it sets a prediction only if both
    are stored and the stored text parses to something other than
    null. *)
Theorem useEffect_outcome (sessionStorage : gmap string string) :
  match useEffect Number_toString JSON_parse sessionStorage with
  | Redirected path =>
      path = "/" /\
      (present (sessionStorage !! "imageUrl") = None \/
       present (sessionStorage !! "prediction") = None)
  | Loaded imageUrl preprocessed prediction =>
      sessionStorage !! "imageUrl" = Some imageUrl /\ imageUrl <> "" /\
      prediction <> Api.JNull /\
      preprocessed = present (sessionStorage !! "preprocessedImageUrl") /\
      exists text,
        sessionStorage !! "prediction" = Some text /\ text <> "" /\
        JSON_parse text = inr prediction
  | Crashed e =>
      exists imageUrl text,
        present (sessionStorage !! "imageUrl") = Some imageUrl /\
        present (sessionStorage !! "prediction") = Some text
  end.
Proof. apply useEffect_cases. Qed.

(** X18. After [handleNewUpload] the three stored items are gone, every
    other item is kept, and mounting the results page again navigates
    back to the upload page. *)
Theorem handleNewUpload_clears (sessionStorage : gmap string string) :
  let cleared := fst (handleNewUpload sessionStorage) in
  snd (handleNewUpload sessionStorage) = "/" /\
  cleared !! "imageUrl" = None /\
  cleared !! "preprocessedImageUrl" = None /\
  cleared !! "prediction" = None /\
  (forall key,
      key <> "imageUrl" -> key <> "preprocessedImageUrl" -> key <> "prediction" ->
      cleared !! key = sessionStorage !! key) /\
  useEffect Number_toString JSON_parse cleared = Redirected "/".
Proof.
  unfold handleNewUpload. cbn [fst snd].
  assert (Hi : delete "prediction"
                 (delete "preprocessedImageUrl" (delete "imageUrl" sessionStorage))
               !! "imageUrl" = None).
  { rewrite lookup_delete_ne by done. rewrite lookup_delete_ne by done.
    apply lookup_delete_eq. }
  split_and!; try done.
  - rewrite lookup_delete_ne by done. apply lookup_delete_eq.
  - apply lookup_delete_eq.
  - intros key H1 H2 H3. by rewrite !lookup_delete_ne.
  - unfold useEffect. by rewrite Hi.
Qed.

End ResultsPage.

(** * Properties of the drop zone *)

Section DropZone.

Import UploadZone.

Lemma find_first {A} (f : A -> bool) (l : list A) :
  match List.find f l with
  | Some x =>
      exists before after,
        l = (before ++ x :: after)%list /\ f x = true /\
        Forall (fun y => f y = false) before
  | None => Forall (fun y => f y = false) l
  end.
Proof.
  induction l as [|y rest IH]; simpl; [constructor|].
  destruct (f y) eqn:Hy.
  - exists [], rest. by split_and!.
  - destruct (List.find f rest) as [x|].
    + destruct IH as (before & after & -> & Hx & Hb).
      exists (y :: before), after. split_and!; [done..|]. by constructor.
    + by constructor.
Qed.

(** X19. A drop always ends the dragging state. It hands a file to
    [onImageSelect] only when the zone is enabled, and then the first of
    the dropped files whose type starts with image/, the files before it
    being of other types; when no dropped file is an image, or the zone
    is disabled, nothing is selected. *)
Theorem handleDrop_selects_first_image (disabled : bool) (files : list Dropped) :
  isDragging (handleDrop disabled files) = false /\
  match selected (handleDrop disabled files) with
  | Some chosen =>
      disabled = false /\
      exists before imageFile after,
        files = (before ++ imageFile :: after)%list /\
        file imageFile = chosen /\
        String.prefix "image/" (type imageFile) = true /\
        Forall (fun f => String.prefix "image/" (type f) = false) before
  | None =>
      disabled = true \/
      Forall (fun f => String.prefix "image/" (type f) = false) files
  end.
Proof.
  unfold handleDrop. cbn [isDragging selected]. split; [done|].
  destruct disabled; [by left|].
  pose proof (find_first (fun f => String.prefix "image/" (type f)) files) as H.
  destruct (List.find _ files) as [imageFile|].
  - destruct H as (before & after & -> & Himg & Hb).
    split; [done|]. by exists before, imageFile, after.
  - by right.
Qed.

Example handleDrop_skips_the_text_file :
  selected (handleDrop false dropped_files) = Some sample_file /\
  selected (handleDrop true dropped_files) = None.
Proof. split; reflexivity. Qed.

End DropZone.

(** * Properties of the upload page *)

Section UploadPage.

Import Upload.

Variable Number_toString : Q -> string.

Lemma tick_bounds p :
  Nat.even p = true -> (p <= 80)%nat ->
  Nat.even (tick p) = true /\ (p <= tick p)%nat /\ (tick p <= 80)%nat.
Proof.
  intros Hev Hp. unfold tick. destruct (Nat.ltb_spec p 80) as [Hlt|Hge].
  - apply Nat.even_spec in Hev as [k ->]. split_and!; [|lia..].
    apply Nat.even_spec. exists (S k). lia.
  - split_and!; [done|lia..].
Qed.

Lemma last_default {A} (v : A) (l : list A) (d d' : A) :
  List.last (v :: l) d = List.last (v :: l) d'.
Proof.
  revert v. induction l as [|x l IH]; intros v; [done|].
  change (List.last (x :: l) d = List.last (x :: l) d'). apply IH.
Qed.

Lemma ticking_bounds n p :
  Nat.even p = true -> (p <= 80)%nat ->
  StronglySorted le (fst (ticking n p)) /\
  Forall (fun v => (p <= v <= 80)%nat) (fst (ticking n p)) /\
  (p <= snd (ticking n p) <= 80)%nat /\
  List.last (fst (ticking n p)) p = snd (ticking n p).
Proof.
  revert p. induction n as [|n IH]; intros p Hev Hp; simpl.
  { split_and!; [constructor|constructor|lia..|done]. }
  destruct (tick_bounds p Hev Hp) as (Hev' & Hle & Hle').
  destruct (IH (tick p) Hev' Hle') as (Hs & Hf & Hl & Hlast).
  destruct (ticking n (tick p)) as [values last] eqn:Ht. simpl in *.
  split_and!.
  - constructor; [done|]. eapply Forall_impl; [exact Hf|]. simpl. lia.
  - constructor; [lia|]. eapply Forall_impl; [exact Hf|]. simpl. lia.
  - lia.
  - lia.
  - destruct values as [|v values']; [done|].
    rewrite <- Hlast. apply last_default.
Qed.

Lemma health_is_ok w :
  Api.completion (checkApiHealth w) = Api.Settled (inr true) <->
  exists response,
    Api.fetch w (health_request w) = Api.Settled (inr response) /\
    Api.ok response = true.
Proof.
  unfold checkApiHealth. cbn [Api.completion].
  destruct (Api.fetch w (health_request w)) as [|[e|response]]; split.
  - done.
  - by intros (r & [=] & _).
  - done.
  - by intros (r & [=] & _).
  - intros [= Hok]. by exists response.
  - by intros (r & [= <-] & ->).
Qed.

Lemma health_is_pending w :
  Api.completion (checkApiHealth w) = Api.Pending <->
  Api.fetch w (health_request w) = Api.Pending.
Proof.
  unfold checkApiHealth. cbn [Api.completion].
  by destruct (Api.fetch w (health_request w)) as [|[e|response]].
Qed.

(** X20. When the health probe settles, rejected or answered with a
    status that is not OK, selecting an image sends no prediction request: the probe
    is the only request, nothing is stored, the page does not navigate,
    and it is left idle with progress 0 and the error stage. *)
Theorem selection_without_server
  (w : World) (file : Api.File) (state : UI) (storage : gmap string string) :
  isProcessing state = false ->
  image_loads w = true ->
  Api.fetch (api w) (health_request (api w)) <> Api.Pending ->
  (forall response,
      Api.fetch (api w) (health_request (api w)) = Api.Settled (inr response) ->
      Api.ok response = false) ->
  let o := handleImageSelect Number_toString w file state storage in
  requests o = [health_request (api w)] /\
  sessionStorage o = storage /\
  navigated o = None /\
  ui o = failed file /\
  settled o = true.
Proof.
  intros Hidle Hloads Hsettles Hdown o. unfold o, handleImageSelect.
  rewrite Hidle, Hloads. cbn [negb].
  destruct (Api.completion (checkApiHealth (api w))) as [|[e|[|]]] eqn:Hh;
    try by split_and!.
  - by apply health_is_pending in Hh.
  - apply health_is_ok in Hh as (response & Hf & Hok).
    rewrite (Hdown _ Hf) in Hok. discriminate Hok.
Qed.

(** What a navigation says about the selection that led to it. *)
Lemma navigation_facts
  (w : World) (file : Api.File) (state : UI) (storage : gmap string string)
  (path : string) :
  let o := handleImageSelect Number_toString w file state storage in
  navigated o = Some path ->
  path = "/results" /\
  settled o = true /\
  requests o = [health_request (api w); Api.predict_request (api w) file] /\
  (exists prediction,
      Api.completion (Api.predictImage Number_toString (api w) file)
        = Api.Settled (inr prediction) /\
      sessionStorage o !! "prediction" = Some (JSON_stringify w prediction)) /\
  sessionStorage o !! "imageUrl" = Some (createObjectURL w) /\
  (forall key,
      key <> "prediction" -> key <> "imageUrl" -> key <> "preprocessedImageUrl" ->
      sessionStorage o !! key = storage !! key) /\
  progress (ui o) = 100%nat /\
  isProcessing (ui o) = true /\
  StronglySorted le (shown o).
Proof.
  intros o. unfold o, handleImageSelect.
  destruct (isProcessing state); [done|].
  destruct (image_loads w); cbn [negb]; [|done].
  destruct (Api.completion (checkApiHealth (api w))) as [|[e|[|]]]; try done.
  pose proof (ticking_bounds (ticks w) 40 eq_refl ltac:(lia))
    as (Hsorted & Hvalues & _ & _).
  destruct (ticking (ticks w) 40) as [values last]. cbn [fst] in *.
  destruct (Api.completion (Api.predictImage Number_toString (api w) file))
    as [|[e|prediction]] eqn:Hcall; try done.
  destruct (log_prediction Number_toString prediction); [done|].
  unfold store.
  assert (Hreq : (Api.requests (checkApiHealth (api w)) ++
                  Api.requests (Api.predictImage Number_toString (api w) file))%list
                 = [health_request (api w); Api.predict_request (api w) file]).
  { destruct (predictImage_returned Number_toString _ _ _ Hcall)
      as (_ & -> & _). done. }
  assert (Hshown : StronglySorted le ([10; 30; 40] ++ values ++ [85; 90; 100])%list%nat).
  { apply StronglySorted_app. split_and!.
    - intros x y Hx Hy. apply elem_of_app in Hy as [Hy|Hy].
      + rewrite Forall_forall in Hvalues. specialize (Hvalues _ Hy).
        set_unfold in Hx. lia.
      + set_unfold in Hx. set_unfold in Hy. lia.
    - repeat constructor; lia.
    - apply StronglySorted_app. split_and!; [|done|repeat constructor; lia].
      intros x y Hx Hy. rewrite Forall_forall in Hvalues.
      specialize (Hvalues _ Hx). set_unfold in Hy. lia. }
  destruct (Api.lookup_member "preprocessedImageUrl" prediction) as [v|] eqn:Hv.
  - destruct (Api.ToBoolean (Some v)).
    + destruct (Api.ToString Number_toString v) as [e|text]; [done|].
      cbn [navigated settled requests sessionStorage ui progress isProcessing shown].
      intros [= <-]. split_and!; try done.
      * exists prediction. split; [done|].
        rewrite lookup_insert_ne by done. rewrite lookup_insert_ne by done.
        apply lookup_insert_eq.
      * rewrite lookup_insert_ne by done. apply lookup_insert_eq.
      * intros key H1 H2 H3. by rewrite !lookup_insert_ne.
    + cbn [navigated settled requests sessionStorage ui progress isProcessing shown].
      intros [= <-]. split_and!; try done.
      * exists prediction. split; [done|].
        rewrite lookup_insert_ne by done. apply lookup_insert_eq.
      * apply lookup_insert_eq.
      * intros key H1 H2 H3. by rewrite !lookup_insert_ne.
  - cbn [navigated settled requests sessionStorage ui progress isProcessing shown].
    intros [= <-]. split_and!; try done.
    + exists prediction. split; [done|].
      rewrite lookup_insert_ne by done. apply lookup_insert_eq.
    + apply lookup_insert_eq.
    + intros key H1 H2 H3. by rewrite !lookup_insert_ne.
Qed.

(** X21. The page navigates only to the results route, and only after a
    prediction was returned and stored: the probe and the prediction are
    then the two requests sent, the stored prediction is the serialised
    result, the stored image URL is the object URL of the file, the
    progress is 100, every value given to the progress bar was at least
    the one before, and the page is still marked as processing. *)
Theorem navigation_after_storing
  (w : World) (file : Api.File) (state : UI) (storage : gmap string string)
  (path : string) :
  let o := handleImageSelect Number_toString w file state storage in
  navigated o = Some path ->
  path = "/results" /\
  settled o = true /\
  requests o = [health_request (api w); Api.predict_request (api w) file] /\
  (exists prediction,
      Api.completion (Api.predictImage Number_toString (api w) file)
        = Api.Settled (inr prediction) /\
      sessionStorage o !! "prediction" = Some (JSON_stringify w prediction)) /\
  sessionStorage o !! "imageUrl" = Some (createObjectURL w) /\
  (forall key,
      key <> "prediction" -> key <> "imageUrl" -> key <> "preprocessedImageUrl" ->
      sessionStorage o !! key = storage !! key) /\
  progress (ui o) = 100%nat /\
  isProcessing (ui o) = true /\
  StronglySorted le (shown o).
Proof. apply navigation_facts. Qed.

(** X22. A selection made while another is processed changes nothing and
    sends nothing. Any other selection that runs to its end without
    navigating leaves the page idle with progress 0, whatever failed:
    the image, the probe, the request, the logging of the result or the
    storing. A selection does not run to its end exactly when the image
    loads and either the probe is never answered, or the probe is
    answered with an OK status and then the client's image never loads or
    the prediction request is never answered. The page then stays marked
    as processing, stores nothing and does not navigate: with the probe
    as the only request and progress 30 in the first case, with a
    progress between 40 and 80 in the others, the prediction request
    having been sent in the last. Whatever happens, the progress bar ends
    on the last value it was given, and no value given exceeds 100. *)
Theorem selection_outcome
  (w : World) (file : Api.File) (state : UI) (storage : gmap string string) :
  let o := handleImageSelect Number_toString w file state storage in
  let probe := Api.fetch (api w) (health_request (api w)) in
  let request := Api.fetch (api w) (Api.predict_request (api w) file) in
  let probe_ok :=
    exists response,
      probe = Api.Settled (inr response) /\ Api.ok response = true in
  (if isProcessing state then
     ui o = state /\ sessionStorage o = storage /\ requests o = [] /\
     navigated o = None /\ settled o = true
   else
     selectedImage (ui o) = Some file /\
     (settled o = true -> navigated o = None ->
      isProcessing (ui o) = false /\ progress (ui o) = 0%nat) /\
     (settled o = false <->
      image_loads w = true /\
      (probe = Api.Pending \/
       probe_ok /\
       (Api.image_onload (api w) = false \/ request = Api.Pending))) /\
     (settled o = false ->
      isProcessing (ui o) = true /\ navigated o = None /\
      sessionStorage o = storage /\
      (probe = Api.Pending ->
       requests o = [health_request (api w)] /\ progress (ui o) = 30%nat) /\
      (probe_ok ->
       (40 <= progress (ui o) <= 80)%nat /\
       requests o =
         (health_request (api w) ::
          if Api.image_onload (api w)
          then [Api.predict_request (api w) file] else [])%list))) /\
  List.last (shown o) (progress state) = progress (ui o) /\
  Forall (fun v => (v <= 100)%nat) (shown o).
Proof.
  intros o probe request probe_ok.
  unfold o, probe_ok, probe, request, handleImageSelect.
  destruct (isProcessing state); [by split_and!|].
  destruct (image_loads w); cbn [negb].
  2:{ split; [split; [|split; [|split]]|split];
        [done | done | split; [done|by intros [? _]] | done | done
        | repeat constructor; lia]. }
  pose proof (ticking_bounds (ticks w) 40 eq_refl ltac:(lia))
    as (_ & Hvalues & Hlast & Hend).
  assert (Hhundred : forall tail,
             Forall (fun v => (v <= 100)%nat) tail ->
             Forall (fun v => (v <= 100)%nat)
                    ([10; 30; 40] ++ fst (ticking (ticks w) 40) ++ tail)%list%nat).
  { intros tail Ht. apply Forall_app. split; [repeat constructor; lia|].
    apply Forall_app. split; [|done].
    eapply Forall_impl; [exact Hvalues|]. simpl. lia. }
  pose proof (health_is_ok (api w)) as Hok.
  pose proof (health_is_pending (api w)) as Hpending.
  pose proof (predictImage_pending Number_toString (api w) file) as Hcall.
  pose proof (predictImage_requests Number_toString (api w) file) as Hsent.
  set (unsettled :=
         true = true /\
         (Api.fetch (api w) (health_request (api w)) = Api.Pending \/
          (exists response,
              Api.fetch (api w) (health_request (api w))
                = Api.Settled (inr response) /\ Api.ok response = true) /\
          (Api.image_onload (api w) = false \/
           Api.fetch (api w) (Api.predict_request (api w) file) = Api.Pending))).
  destruct (Api.completion (checkApiHealth (api w))) as [|[e|[|]]] eqn:Hh.
  - assert (Hp : Api.fetch (api w) (health_request (api w)) = Api.Pending)
      by by apply Hpending.
    cbn [ui settled navigated shown progress isProcessing selectedImage
            sessionStorage requests checkApiHealth Api.requests].
    split; [split; [|split; [|split]]|split];
      [done | done | | | done | repeat constructor; lia].
    + split; [|done]. intros _. split; [done|by left].
    + intros _. split_and!; [done..|].
      intros (response & Hr & _). congruence.
  - assert (Hno : ~ unsettled).
    { intros [_ [H|[H _]]]; [apply Hpending in H|apply Hok in H]; congruence. }
    cbn [ui settled navigated shown progress isProcessing selectedImage failed].
    split; [split; [|split; [|split]]|split];
      [done | done | split; [done|by intros H; destruct (Hno H)] | done | done
      | repeat constructor; lia].
  - assert (Hprobe : exists response,
               Api.fetch (api w) (health_request (api w))
                 = Api.Settled (inr response) /\ Api.ok response = true)
      by by apply Hok.
    assert (Hnot : Api.fetch (api w) (health_request (api w)) <> Api.Pending).
    { destruct Hprobe as (response & -> & _). done. }
    destruct (ticking (ticks w) 40) as [values last]. cbn [fst snd] in *.
    destruct (Api.completion (Api.predictImage Number_toString (api w) file))
      as [|[e|prediction]].
    + cbn [ui settled navigated shown progress isProcessing selectedImage
             sessionStorage requests checkApiHealth Api.requests].
      rewrite Hsent.
      split; [split; [|split; [|split]]|split]; [done | done | | | |].
      * split; [|done]. intros _. split; [done|]. right. split; [done|].
        by apply Hcall.
      * intros _. split_and!; [done..| |]; [by intros|].
        intros _. split; [lia|]. by destruct (Api.image_onload (api w)).
      * rewrite <- Hend. destruct values as [|v rest]; [done|].
        change (List.last (v :: rest) (progress state)
                = List.last (v :: rest) 40%nat).
        apply last_default.
      * rewrite <- (app_nil_r values). apply Hhundred. constructor.
    + assert (Hno : ~ unsettled).
      { intros [_ [H|[_ H]]]; [done|]. apply Hcall in H. discriminate H. }
      cbn [ui settled navigated shown progress isProcessing selectedImage failed].
      split; [split; [|split; [|split]]|split];
        [done | done | split; [done|by intros H; destruct (Hno H)] | done | |].
      * by rewrite app_assoc, last_last.
      * apply Hhundred. repeat constructor; lia.
    + assert (Hno : ~ unsettled).
      { intros [_ [H|[_ H]]]; [done|]. apply Hcall in H. discriminate H. }
      destruct (log_prediction Number_toString prediction).
      { cbn [ui settled navigated shown progress isProcessing selectedImage failed].
        split; [split; [|split; [|split]]|split];
          [done | done | split; [done|by intros H; destruct (Hno H)] | done | |].
        + by rewrite (app_assoc _ values), (app_assoc _ [85%nat] [0%nat]), last_last.
        + apply Hhundred. repeat constructor; lia. }
      destruct (store Number_toString w prediction storage) as [[e|[]] storage'].
      * cbn [ui settled navigated shown progress isProcessing selectedImage failed].
        split; [split; [|split; [|split]]|split];
          [done | done | split; [done|by intros H; destruct (Hno H)] | done | |].
        -- by rewrite (app_assoc _ values),
             (app_assoc _ [85; 90]%nat [0%nat]), last_last.
        -- apply Hhundred. repeat constructor; lia.
      * cbn [ui settled navigated shown progress isProcessing selectedImage].
        split; [split; [|split; [|split]]|split];
          [done | done | split; [done|by intros H; destruct (Hno H)] | done | |].
        -- by rewrite (app_assoc _ values),
             (app_assoc _ [85; 90]%nat [100%nat]), last_last.
        -- apply Hhundred. repeat constructor; lia.
  - assert (Hno : ~ unsettled).
    { intros [_ [H|[H _]]]; [apply Hpending in H|apply Hok in H]; congruence. }
    cbn [ui settled navigated shown progress isProcessing selectedImage failed].
    split; [split; [|split; [|split]]|split];
      [done | done | split; [done|by intros H; destruct (Hno H)] | done | done
      | repeat constructor; lia].
Qed.

Variable JSON_parse : string -> Error + Api.JSON.

(** X23. After a selection that navigated to the results route, mounting
    the results page does not send the user back to the upload page,
    provided the object URL of the file and the serialised prediction are
    not empty, as they never are in a browser. *)
Theorem results_page_after_upload
  (w : World) (file : Api.File) (state : UI) (storage : gmap string string)
  (path : string) :
  let o := handleImageSelect Number_toString w file state storage in
  navigated o = Some path ->
  createObjectURL w <> "" ->
  (forall prediction, JSON_stringify w prediction <> "") ->
  match Results.useEffect Number_toString JSON_parse (sessionStorage o) with
  | Results.Redirected _ => False
  | _ => True
  end.
Proof.
  intros o Hnav Hurl Hjson.
  destruct (navigation_facts w file state storage path Hnav)
    as (_ & _ & _ & (prediction & _ & Hp) & Hi & _).
  fold o in Hp, Hi.
  pose proof (useEffect_cases Number_toString JSON_parse (sessionStorage o)) as H.
  destruct (Results.useEffect Number_toString JSON_parse (sessionStorage o));
    [|done..].
  destruct H as [_ [H|H]].
  - rewrite Hi in H. unfold Results.present in H.
    destruct (String.eqb_spec (createObjectURL w) ""); done.
  - rewrite Hp in H. unfold Results.present in H.
    destruct (String.eqb_spec (JSON_stringify w prediction) ""); [|done].
    by destruct (Hjson prediction).
Qed.

End UploadPage.

Lemma upload_navigates :
  Upload.navigated
    (Upload.handleImageSelect sample_Number_toString
       (upload_world healthy_service) sample_file idle ∅)
  = Some "/results".
Proof. vm_compute. reflexivity. Qed.

Lemma selection_without_server_witness :
  let o := Upload.handleImageSelect sample_Number_toString
             (upload_world offline_service) sample_file idle ∅ in
  Upload.requests o = [health_request offline_service] /\
  Upload.sessionStorage o = ∅ /\
  Upload.navigated o = None.
Proof.
  destruct (selection_without_server sample_Number_toString
              (upload_world offline_service) sample_file idle ∅
              eq_refl eq_refl ltac:(discriminate)
              ltac:(intros response; discriminate))
    as (Hreq & Hst & Hnav & _).
  split_and!; [exact Hreq | exact Hst | exact Hnav].
Defined.

Lemma navigation_after_storing_witness :
  let o := Upload.handleImageSelect sample_Number_toString
             (upload_world healthy_service) sample_file idle ∅ in
  Upload.navigated o = Some "/results" /\
  Upload.sessionStorage o !! "imageUrl" = Some "blob:leaf" /\
  Upload.progress (Upload.ui o) = 100%nat.
Proof.
  destruct (navigation_after_storing sample_Number_toString
              (upload_world healthy_service) sample_file idle ∅ "/results"
              upload_navigates)
    as (_ & _ & _ & _ & Hi & _ & Hp & _).
  split_and!; [exact upload_navigates | exact Hi | exact Hp].
Defined.

Lemma results_page_after_upload_witness :
  match Results.useEffect sample_Number_toString
          (fun _ => inr prediction_body)
          (Upload.sessionStorage
             (Upload.handleImageSelect sample_Number_toString
                (upload_world healthy_service) sample_file idle ∅)) with
  | Results.Redirected _ => False
  | _ => True
  end.
Proof.
  apply (results_page_after_upload sample_Number_toString
           (fun _ => inr prediction_body)
           (upload_world healthy_service) sample_file idle ∅ "/results"
           upload_navigates).
  - discriminate.
  - intros prediction. discriminate.
Defined.

(** A prediction request that is never answered: the probe and the
    request have been sent, and the page stays marked as processing, at
    progress 80 once the interval has fired twenty times. *)
Lemma selection_outcome_witness :
  let o := Upload.handleImageSelect sample_Number_toString
             (upload_world stalled_service) sample_file idle ∅ in
  Upload.settled o = false /\
  Upload.isProcessing (Upload.ui o) = true /\
  Upload.navigated o = None /\
  (40 <= Upload.progress (Upload.ui o) <= 80)%nat /\
  Upload.requests o =
    [health_request stalled_service;
     Api.predict_request stalled_service sample_file].
Proof.
  destruct (selection_outcome sample_Number_toString
              (upload_world stalled_service) sample_file idle ∅)
    as ((_ & _ & Hiff & Hstays) & _).
  assert (Hprobe : exists response,
             Api.fetch stalled_service (health_request stalled_service)
               = Api.Settled (inr response) /\ Api.ok response = true)
    by (eexists; split; reflexivity).
  assert (Hunsettled :
            Upload.settled
              (Upload.handleImageSelect sample_Number_toString
                 (upload_world stalled_service) sample_file idle ∅) = false).
  { apply Hiff. split; [reflexivity|]. right. split; [exact Hprobe|].
    right. reflexivity. }
  destruct (Hstays Hunsettled) as (Hbusy & Hnav & _ & _ & Hsent).
  destruct (Hsent Hprobe) as [Hprogress Hrequests].
  exact (conj Hunsettled (conj Hbusy (conj Hnav (conj Hprogress Hrequests)))).
Defined.
